(** * leetcode-problems-export: a shallow embedding of [export.py]

    The script fetches the LeetCode problem catalogue page by page through a
    GraphQL client and writes it to a semicolon-delimited file.  Python
    integers are modelled as [Z], text as [string], lists as [list], and
    everything the script does to the outside world (environment lookups,
    network requests, sleeps, log records, the output file) is threaded
    through an explicit [World] by a small state-and-exception monad. *)

From Stdlib Require Import ZArith List String Ascii Bool Lia Permutation.
Import ListNotations.

Local Open Scope string_scope.
Local Open Scope Z_scope.
Local Open Scope list_scope.

(** ** Exceptions *)

Module Exc.

(** The exception classes the script can meet.  [ProtocolError] and
    [IncompleteRead] are two classes of urllib3, both derived from its
    [HTTPError] and neither from the other.  [JSONDecodeError] and
    [UnicodeEncodeError] are subclasses of [ValueError]. *)
Inductive exn_class : Type :=
  | ProtocolError
  | IncompleteRead
  | KeyError
  | TypeError
  | AttributeError
  | ValueError
  | JSONDecodeError
  | UnicodeEncodeError
  | ZeroDivisionError
  | OverflowError
  | ApiException
  | FileNotFoundError
  | IsADirectoryError
  | PermissionError.

Definition exn_class_eqb (a b : exn_class) : bool :=
  match a, b with
  | ProtocolError, ProtocolError | IncompleteRead, IncompleteRead
  | KeyError, KeyError | TypeError, TypeError
  | AttributeError, AttributeError | ValueError, ValueError
  | JSONDecodeError, JSONDecodeError
  | UnicodeEncodeError, UnicodeEncodeError
  | ZeroDivisionError, ZeroDivisionError
  | OverflowError, OverflowError | ApiException, ApiException
  | FileNotFoundError, FileNotFoundError
  | IsADirectoryError, IsADirectoryError
  | PermissionError, PermissionError => true
  | _, _ => false
  end.

(** [issubclass c d]: class [c] is [d] or derives from it. *)
Definition issubclass (c d : exn_class) : bool :=
  match c, d with
  | JSONDecodeError, ValueError => true
  | UnicodeEncodeError, ValueError => true
  | _, _ => exn_class_eqb c d
  end.

Record exn : Type := Exn { exc_type : exn_class; exc_arg : string }.

(** [except classes]: does the clause catch [e]? *)
Definition isinstance (e : exn) (classes : list exn_class) : bool :=
  existsb (issubclass (exc_type e)) classes.

End Exc.
Export Exc.

(** ** The world and the monad *)

Inductive outcome (A : Type) : Type :=
  | Ok (a : A)
  | Raise (e : exn).
Arguments Ok {A} a.
Arguments Raise {A} e.

(** Variables of the [problemsetQuestionList] operation. *)
Record GraphqlQueryProblemsetQuestionListVariables : Type := MkVariables {
  category_slug : string;
  limit : Z;
  skip : Z;
  filters_tags : option (list string)
}.

Record GraphqlQuery : Type := MkQuery {
  query : string;
  variables : GraphqlQueryProblemsetQuestionListVariables;
  operation_name : string
}.

(** One topic tag of a question. *)
Record TopicTag : Type := MkTopicTag {
  tag_name : option string;
  tag_slug : option string
}.

(** [GraphqlQuestionDetail], restricted to the attributes the script reads.
    Every attribute of the generated model class may be [None].  The
    frequency is a float; only its printed form [repr] reaches the output, so
    the record carries that text. *)
Record GraphqlQuestionDetail : Type := MkQuestion {
  question_frontend_id : option string;
  title : option string;
  title_slug : option string;
  category_title : option string;
  frequency : option string;
  is_paid_only : option bool;
  topic_tags : option (list TopicTag);
  company_tag_stats : option string
}.

Record QuestionList : Type := MkQuestionList {
  total_num : option Z;
  questions : option (list GraphqlQuestionDetail)
}.

Record GraphqlData : Type := MkData {
  problemset_question_list : option QuestionList
}.

(** What goes over the wire.  [leetcode.auth.get_csrf_cookie] performs one
    request of its own to obtain the anti-forgery cookie. *)
Inductive request : Type :=
  | ReqCsrfCookie (session_id : string)
  | ReqGraphqlPost (csrf_token session_id : string) (body : GraphqlQuery).

Inductive response : Type :=
  | RespCookie (csrf_token : string)
  | RespGraphql (data : option GraphqlData).

Inductive log_record : Type :=
  | LogException (fmt : string) (args : list Z)
  | LogError (msg : string)
  | LogInfo (fmt : string) (args : list Z).

(** A call recorded by an instrumented stand-in (a [unittest.mock] double). *)
Record call : Type := MkCall { callee : string; call_args : list Z }.

(** The file system and the text layer of the machine.  [open_target]
    tells what [open(path, "w")] does with a path: the error it raises, or
    the file it opens, named by one canonical name however the path spells
    it.  [text_layer] tells what a text file makes of a string written to
    it: the error it raises when the string cannot be encoded, or the text
    that reaches the file once line ends are translated. *)
Record FileSystem : Type := MkFileSystem {
  (** files on disk: canonical name and content *)
  disk : list (string * string);
  open_target : string -> outcome string;
  text_layer : string -> outcome string
}.

Record World : Type := MkWorld {
  environ : list (string * string);
  (** reply of the remote side to the [n]-th request that reaches it *)
  remote : nat -> request -> outcome response;
  (** requests that reached the transport, oldest first *)
  sent : list request;
  (** arguments of [time.sleep], oldest first *)
  slept : list Z;
  logged : list log_record;
  files : FileSystem;
  calls : list call
}.

Definition M (A : Type) : Type := World -> outcome A * World.

Definition ret {A} (a : A) : M A := fun w => (Ok a, w).
Definition raise {A} (e : exn) : M A := fun w => (Raise e, w).
Definition bind {A B} (c : M A) (k : A -> M B) : M B :=
  fun w =>
    match c w with
    | (Ok a, w') => k a w'
    | (Raise e, w') => (Raise e, w')
    end.

Notation "x <- c ;; k" := (bind c (fun x => k))
  (at level 61, c at next level, right associativity).
Notation "c ;;; k" := (bind c (fun _ => k))
  (at level 61, right associativity).

(** [try: body except classes: handler] *)
Definition try_except {A} (body : M A) (classes : list exn_class)
    (handler : exn -> M A) : M A :=
  fun w =>
    match body w with
    | (Ok a, w') => (Ok a, w')
    | (Raise e, w') =>
        if isinstance e classes then handler e w' else (Raise e, w')
    end.

(** [time.sleep(seconds)] refuses a negative length. *)
Definition time_sleep (seconds : Z) : M unit :=
  fun w =>
    if seconds <? 0
    then (Raise (Exn ValueError "sleep length must be non-negative"), w)
    else (Ok tt,
          MkWorld (environ w) (remote w) (sent w) (slept w ++ [seconds])
                  (logged w) (files w) (calls w)).

Definition logging (r : log_record) : M unit :=
  fun w => (Ok tt,
            MkWorld (environ w) (remote w) (sent w) (slept w)
                    (logged w ++ [r]) (files w) (calls w)).

(** One round trip: the request is recorded, the remote side answers. *)
Definition transport (r : request) : M response :=
  fun w => (remote w (List.length (sent w)) r,
            MkWorld (environ w) (remote w) (sent w ++ [r]) (slept w)
                    (logged w) (files w) (calls w)).

(** [range(n)] *)
Definition range (n : Z) : list Z :=
  map Z.of_nat (seq 0 (Z.to_nat n)).

(** ** Retry decorator *)

Section Retry.
Context {A : Type}.
Variable times : Z.
Variable exceptions : list exn_class.
Variable delay : Z.
Variable func : M A.

(** The body of [wrapper]: the [for] loop over the remaining attempt
    numbers, then the last, unguarded call. *)
Fixpoint wrapper_loop (attempts : list Z) : M A :=
  match attempts with
  | attempt :: rest =>
      try_except func exceptions
        (fun _ =>
           logging (LogException "Exception occured, try %s/%s"
                                 [attempt + 1; times]) ;;;
           time_sleep delay ;;;
           wrapper_loop rest)
  | [] =>
      logging (LogError "Last try") ;;;
      func
  end.

Definition retry : M A := wrapper_loop (range (times - 1)).
End Retry.

(** ** Instrumented stand-ins *)

Definition calls_to (name : string) (w : World) : list call :=
  filter (fun c => String.eqb (callee c) name) (calls w).

Definition call_count (name : string) (w : World) : nat :=
  List.length (calls_to name w).

Definition record_call (name : string) (args : list Z) (w : World) : World :=
  MkWorld (environ w) (remote w) (sent w) (slept w) (logged w) (files w)
          (calls w ++ [MkCall name args]).

(** A double whose [n]-th call (counting from 0) yields [behaviour n]. *)
Definition mock {A} (name : string) (args : list Z)
    (behaviour : nat -> outcome A) : M A :=
  fun w => (behaviour (call_count name w), record_call name args w).

(** ** Python numerics: [int / int] and [math.ceil] *)

Module PyFloat.

(** A finite binary64 value, [mant * 2 ^ expo].  The sign of a zero is not
    kept: [math.ceil] maps both zeros to the integer 0. *)
Record float : Type := MkFloat { mant : Z; expo : Z }.

Definition DBL_MANT_DIG : Z := 53.
Definition DBL_MAX_EXP : Z := 1024.
(** exponent of the least significant bit of the smallest subnormal *)
Definition DBL_MIN_ULP_EXP : Z := -1074.

(** Numerator and denominator of [a / b * 2 ^ (- e)]. *)
Definition scaled_num (a e : Z) : Z := a * 2 ^ Z.max 0 (- e).
Definition scaled_den (b e : Z) : Z := b * 2 ^ Z.max 0 e.

(** Quotient of [n] by [d > 0] rounded to the nearest integer, ties to the
    even one. *)
Definition div_half_even (n d : Z) : Z :=
  let q := n / d in
  let r := n mod d in
  if 2 * r <? d then q
  else if d <? 2 * r then q + 1
  else if Z.even q then q else q + 1.

(** Exponent of the last place of the binary64 nearest to [a / b], for
    positive [a] and [b]: the quotient scaled by it has exactly
    [DBL_MANT_DIG] bits, unless the result is subnormal. *)
Definition quotient_ulp_exp (a b : Z) : Z :=
  let e := Z.log2 a - Z.log2 b - DBL_MANT_DIG in
  let e' :=
    if 2 ^ DBL_MANT_DIG <=? scaled_num a e / scaled_den b e
    then e + 1 else e in
  Z.max e' DBL_MIN_ULP_EXP.

(** [a / b] for Python integers: the correctly rounded (nearest, ties to
    even) binary64 of the exact quotient, whatever the size of the
    operands; a quotient below half the smallest subnormal becomes zero. *)
Definition true_divide (a b : Z) : outcome float :=
  if b =? 0 then Raise (Exn ZeroDivisionError "division by zero")
  else if a =? 0 then Ok (MkFloat 0 0)
  else
    let e := quotient_ulp_exp (Z.abs a) (Z.abs b) in
    let m := div_half_even (scaled_num (Z.abs a) e) (scaled_den (Z.abs b) e) in
    if (0 <=? e) && (2 ^ DBL_MAX_EXP <=? m * 2 ^ e)
    then Raise (Exn OverflowError
                    "integer division result too large for a float")
    else Ok (MkFloat (Z.sgn a * Z.sgn b * m) e).

(** [math.ceil x] of a finite float: an exact integer. *)
Definition math_ceil (x : float) : Z :=
  if 0 <=? expo x then mant x * 2 ^ expo x
  else - (- mant x / 2 ^ (- expo x)).

End PyFloat.
Export PyFloat.

Definition lift {A} (o : outcome A) : M A := fun w => (o, w).

(** Attribute access on a value that may be [None]. *)
Definition getattr {A B} (obj : option A) (attr : string) (f : A -> B)
  : M B :=
  match obj with
  | Some o => ret (f o)
  | None =>
      raise (Exn AttributeError
                 ("'NoneType' object has no attribute '" ++ attr ++ "'")%string)
  end.

(** ** Authenticated client *)

(** The [api_key] entries of the client's configuration. *)
Record DefaultApi : Type := MkApi {
  x_csrftoken : string;
  csrftoken : string;
  LEETCODE_SESSION : string;
  Referer : string
}.

Fixpoint assoc {V} (key : string) (l : list (string * V)) : option V :=
  match l with
  | [] => None
  | (k, v) :: rest => if String.eqb k key then Some v else assoc key rest
  end.

(** [os.environ[key]] *)
Definition os_environ (key : string) : M string :=
  fun w =>
    match assoc key (environ w) with
    | Some v => (Ok v, w)
    | None => (Raise (Exn KeyError key), w)
    end.

(** Modelled from the spec: [leetcode.auth.get_csrf_cookie] belongs to the
    client library and is not part of the script; it performs one network
    round trip with the session credential and yields the anti-forgery
    token carried by the reply. *)
Definition get_csrf_cookie (session_id : string) : M string :=
  r <- transport (ReqCsrfCookie session_id) ;;
  match r with
  | RespCookie token => ret token
  | RespGraphql _ => raise (Exn KeyError "csrftoken")
  end.

Definition _get_leetcode_api_client : M DefaultApi :=
  session_id <- os_environ "LEETCODE_SESSION_ID" ;;
  csrf_token <- get_csrf_cookie session_id ;;
  ret (MkApi csrf_token csrf_token session_id "https://leetcode.com").

(** [api_instance.graphql_post(body=...).data]: one request through the
    transport, carrying the client's credentials.  The client builds the
    response object from the reply and refuses a reply without data. *)
Definition graphql_post (api_instance : DefaultApi) (body : GraphqlQuery)
  : M GraphqlData :=
  r <- transport (ReqGraphqlPost (x_csrftoken api_instance)
                                 (LEETCODE_SESSION api_instance) body) ;;
  match r with
  | RespGraphql (Some data) => ret data
  | RespGraphql None =>
      raise (Exn ValueError "Invalid value for `data`, must not be `None`")
  | RespCookie _ => raise (Exn ApiException "unexpected reply")
  end.

(** ** Count fetcher *)

Definition count_query : string :=
"
        query problemsetQuestionList($categorySlug: String, $limit: Int, $skip: Int, $filters: QuestionListFilterInput) {
          problemsetQuestionList: questionList(
            categorySlug: $categorySlug
            limit: $limit
            skip: $skip
            filters: $filters
          ) {
            totalNum
          }
        }
        ".

Definition count_request : GraphqlQuery :=
  MkQuery count_query (MkVariables EmptyString 1 0 (Some []))
          "problemsetQuestionList".

(** [x or 0] for an optional integer: [None] and [0] are both falsy. *)
Definition or_zero (x : option Z) : Z :=
  match x with
  | Some n => if n =? 0 then 0 else n
  | None => 0
  end.

(** The undecorated body of [_get_problems_count]. *)
Definition get_problems_count_body : M Z :=
  api_instance <- _get_leetcode_api_client ;;
  time_sleep 2 ;;;
  data <- graphql_post api_instance count_request ;;
  total <- getattr (problemset_question_list data) "total_num" total_num ;;
  ret (or_zero total).

Definition _get_problems_count : M Z :=
  retry 3 [ProtocolError] 5 get_problems_count_body.

(** ** Page fetcher *)

Definition page_query : string :=
"
        query problemsetQuestionList($categorySlug: String, $limit: Int, $skip: Int, $filters: QuestionListFilterInput) {
          problemsetQuestionList: questionList(
            categorySlug: $categorySlug
            limit: $limit
            skip: $skip
            filters: $filters
          ) {
            questions: data {
                questionFrontendId
                title
                titleSlug
                categoryTitle
                frequency
                isPaidOnly
                topicTags {
                  name
                  slug
                }
                companyTagStats
            }
          }
        }
        ".

Definition page_request (offset page_size page : Z) : GraphqlQuery :=
  MkQuery page_query
          (MkVariables EmptyString page_size (offset + page * page_size) None)
          "problemsetQuestionList".

(** The undecorated body of [_get_problems_data_page]. *)
Definition get_problems_data_page_body (offset page_size page : Z)
  : M (option (list GraphqlQuestionDetail)) :=
  api_instance <- _get_leetcode_api_client ;;
  time_sleep 2 ;;;
  data <- graphql_post api_instance (page_request offset page_size page) ;;
  getattr (problemset_question_list data) "questions" questions.

Definition _get_problems_data_page (offset page_size page : Z)
  : M (option (list GraphqlQuestionDetail)) :=
  retry 3 [ProtocolError] 5
        (get_problems_data_page_body offset page_size page).

(** ** Pagination driver *)

Section Driver.
(** The two fetchers are looked up by name at call time, so a test can
    put doubles in their place. *)
Variable count_fetcher : M Z.
Variable page_fetcher :
  Z -> Z -> Z -> M (option (list GraphqlQuestionDetail)).

(** The [for page in ...] loop; [problems.extend(data)] needs an
    iterable. *)
Fixpoint fetch_pages (start page_size : Z) (pages : list Z)
    (problems : list GraphqlQuestionDetail)
  : M (list GraphqlQuestionDetail) :=
  match pages with
  | [] => ret problems
  | page :: rest =>
      data <- page_fetcher start page_size page ;;
      match data with
      | Some items => fetch_pages start page_size rest (problems ++ items)
      | None =>
          raise (Exn TypeError "'NoneType' object is not iterable")
      end
  end.

(** Number of pages: [math.ceil((stop - start + 1) / page_size)]. *)
Definition page_count (start stop page_size : Z) : outcome Z :=
  match true_divide (stop - start + 1) page_size with
  | Ok x => Ok (math_ceil x)
  | Raise e => Raise e
  end.

(** [tqdm(range(pages), unit=..., unit_scale=page_size)]: the progress bar
    hands out the indices of the range unchanged; what it prints goes to
    the error stream and is not part of the world.  It can end the loop in
    two ways.  When it is built it takes [len] of the range, which on a
    64-bit interpreter fails beyond [sys.maxsize]. *)
Definition tqdm_range (pages : Z) : outcome (list Z) :=
  if 2 ^ 63 - 1 <? pages
  then Raise (Exn OverflowError
                  "Python int too large to convert to C ssize_t")
  else Ok (range pages).

(** An integer converts to a binary64 float unless it rounds to 2^1024 or
    beyond. *)
Definition float_fits (n : Z) : bool := Z.abs n <? 2 ^ 1024 - 2 ^ 970.

(** When the range is used up the bar is drawn a last time, with the rate
    computed from the number of indices handed out, scaled by [unit_scale],
    as a float.  A redraw in the middle of the loop, which happens or not
    with the time a page takes, can fail only where this last one does; the
    model lets the loop come to its end first. *)
Definition tqdm_close (handed_out unit_scale : Z) : outcome unit :=
  if float_fits (handed_out * unit_scale) then Ok tt
  else Raise (Exn OverflowError "int too large to convert to float").

Definition get_problems_data (page_size : Z)
  : M (list GraphqlQuestionDetail) :=
  problem_count <- count_fetcher ;;
  let start := 0 in
  let stop := problem_count in
  logging (LogInfo "Fetching %s problems %s per page"
                   [stop - start + 1; page_size]) ;;;
  pages <- lift (page_count start stop page_size) ;;
  bar <- lift (tqdm_range pages) ;;
  problems <- fetch_pages start page_size bar [] ;;
  lift (tqdm_close (Z.of_nat (List.length bar)) page_size) ;;;
  ret problems.
End Driver.

Definition _get_problems_data
  : Z -> M (list GraphqlQuestionDetail) :=
  get_problems_data _get_problems_count _get_problems_data_page.

(** ** The [csv] writer *)

Module Csv.

Definition delimiter : ascii := ";"%char.
Definition quotechar : ascii := ascii_of_nat 34.
Definition CR : ascii := ascii_of_nat 13.
Definition LF : ascii := ascii_of_nat 10.
Definition lineterminator : string := String CR (String LF EmptyString).

(** Characters that force a field into quotes under [QUOTE_MINIMAL]. *)
Definition special (c : ascii) : bool :=
  Ascii.eqb c delimiter || Ascii.eqb c quotechar
  || Ascii.eqb c CR || Ascii.eqb c LF.

Fixpoint needs_quotes (s : string) : bool :=
  match s with
  | EmptyString => false
  | String c rest => special c || needs_quotes rest
  end.

(** [doublequote=True]: a quote character inside a field is written twice. *)
Fixpoint double_quotes (s : string) : string :=
  match s with
  | EmptyString => EmptyString
  | String c rest =>
      if Ascii.eqb c quotechar
      then String c (String c (double_quotes rest))
      else String c (double_quotes rest)
  end.

Definition quoted (s : string) : string :=
  String quotechar (double_quotes s ++ String quotechar EmptyString)%string.

Definition format_field (s : string) : string :=
  if needs_quotes s then quoted s else s.

(** One record as [writerow] emits it.  A record made of a single empty
    field is written as a pair of quotes. *)
Definition format_row (fields : list string) : string :=
  match fields with
  | [EmptyString] => (quoted EmptyString ++ lineterminator)%string
  | _ =>
      (String.concat (String delimiter EmptyString) (map format_field fields)
       ++ lineterminator)%string
  end.

End Csv.

(** ** Files *)

Fixpoint store {V} (key : string) (v : V) (l : list (string * V))
  : list (string * V) :=
  match l with
  | [] => [(key, v)]
  | (k, x) :: rest =>
      if String.eqb k key then (k, v) :: rest else (k, x) :: store key v rest
  end.

(** Files are stored under their canonical names. *)
Definition set_file (file content : string) (w : World) : World :=
  MkWorld (environ w) (remote w) (sent w) (slept w) (logged w)
          (MkFileSystem (store file content (disk (files w)))
                        (open_target (files w)) (text_layer (files w)))
          (calls w).

Definition file_content (file : string) (w : World) : string :=
  match assoc file (disk (files w)) with
  | Some s => s
  | None => EmptyString
  end.

(** [open(path, "w")]: the file the path leads to is created or truncated
    and handed back, unless the path cannot be opened for writing (an empty
    path, a missing directory, a directory, a file that may not be
    written). *)
Definition open_w (path : string) : M string :=
  fun w =>
    match open_target (files w) path with
    | Ok file => (Ok file, set_file file EmptyString w)
    | Raise e => (Raise e, w)
    end.

(** Text written to an open file ends up on disk when the [with] block is
    left, normally or by an exception; the model appends at once what the
    text layer makes of the string, and nothing when the string cannot be
    encoded. *)
Definition file_write (file text : string) : M unit :=
  fun w =>
    match text_layer (files w) text with
    | Ok written =>
        (Ok tt, set_file file (file_content file w ++ written)%string w)
    | Raise e => (Raise e, w)
    end.

Definition writerow (file : string) (fields : list string) : M unit :=
  file_write file (Csv.format_row fields).

(** ** Flattening one problem into a row *)

(** A decoded JSON document as the Python object [json.loads] returns.  A
    [JDict] lists its items in insertion order, with distinct keys. *)
#[warnings="-register-all"]
Inductive pyjson : Type :=
  | JNull
  | JBool (b : bool)
  | JInt (n : Z)
  | JFloat (repr : string)
  | JStr (s : string)
  | JList (elements : list pyjson)
  | JDict (items : list (string * pyjson)).

Definition obind {A B} (o : outcome A) (k : A -> outcome B) : outcome B :=
  match o with
  | Ok a => k a
  | Raise e => Raise e
  end.

(** [obj.values()] *)
Definition dict_values (obj : pyjson) : outcome (list pyjson) :=
  match obj with
  | JDict items => Ok (map snd items)
  | _ => Raise (Exn AttributeError "object has no attribute 'values'")
  end.

(** [iter(obj)]: a list yields its elements, a string its characters, a
    dictionary its keys. *)
Definition py_iter (obj : pyjson) : outcome (list pyjson) :=
  match obj with
  | JList elements => Ok elements
  | JStr s =>
      Ok (map (fun c => JStr (String c EmptyString)) (list_ascii_of_string s))
  | JDict items => Ok (map (fun kv => JStr (fst kv)) items)
  | _ => Raise (Exn TypeError "object is not iterable")
  end.

(** [d["slug"]] *)
Definition subscript_slug (d : pyjson) : outcome pyjson :=
  match d with
  | JDict items =>
      match assoc "slug" items with
      | Some x => Ok x
      | None => Raise (Exn KeyError "slug")
      end
  | JStr _ => Raise (Exn TypeError "string indices must be integers")
  | JList _ => Raise (Exn TypeError "list indices must be integers or slices")
  | _ => Raise (Exn TypeError "object is not subscriptable")
  end.

Definition hashable (x : pyjson) : bool :=
  match x with
  | JList _ | JDict _ => false
  | _ => true
  end.

(** The elements the set comprehension puts into the set, in the order in
    which it meets them: [d["slug"]] for every [d] of one iterable. *)
Fixpoint slugs_of_entries (ds : list pyjson) : outcome (list pyjson) :=
  match ds with
  | [] => Ok []
  | d :: rest =>
      obind (subscript_slug d) (fun x =>
      if hashable x
      then obind (slugs_of_entries rest) (fun xs => Ok (x :: xs))
      else Raise (Exn TypeError "unhashable type"))
  end.

(** [itertools.chain] over the unpacked values is lazy: an iterable is
    opened only when the ones before it are used up. *)
Fixpoint chain_slugs (values : list pyjson) : outcome (list pyjson) :=
  match values with
  | [] => Ok []
  | v :: rest =>
      obind (py_iter v) (fun ds =>
      obind (slugs_of_entries ds) (fun xs =>
      obind (chain_slugs rest) (fun ys => Ok (xs ++ ys))))
  end.

(** [",".join] accepts strings only. *)
Fixpoint str_items (xs : list pyjson) : outcome (list string) :=
  match xs with
  | [] => Ok []
  | JStr s :: rest => obind (str_items rest) (fun ss => Ok (s :: ss))
  | _ :: _ =>
      Raise (Exn TypeError "sequence item: expected str instance")
  end.

Definition comma_join (l : list string) : string := String.concat "," l.

(** The slugs of [[d.slug for d in topic_tags]] as [",".join] takes them:
    a slug that is [None] is refused. *)
Fixpoint tag_slugs (tags : list TopicTag) : outcome (list string) :=
  match tags with
  | [] => Ok []
  | t :: rest =>
      match tag_slug t with
      | Some s => obind (tag_slugs rest) (fun ss => Ok (s :: ss))
      | None =>
          Raise (Exn TypeError "sequence item: expected str instance")
      end
  end.

Definition topics_field (p : GraphqlQuestionDetail) : outcome string :=
  match topic_tags p with
  | None => Raise (Exn TypeError "'NoneType' object is not iterable")
  | Some tags => obind (tag_slugs tags) (fun ss => Ok (comma_join ss))
  end.

(** How [csv] prints a cell: [None] as nothing, a boolean by [str]. *)
Definition cell (x : option string) : string :=
  match x with
  | Some s => s
  | None => EmptyString
  end.

Definition bool_cell (x : option bool) : string :=
  match x with
  | Some true => "True"
  | Some false => "False"
  | None => EmptyString
  end.

Definition csv_header : list string :=
  ["Question id"; "title"; "slug"; "category"; "frequency"; "is_paid";
   "topics"; "companies"].

(** Result of [parse_args]. *)
Record Namespace : Type := MkNamespace {
  batch_size : Z;
  output : string
}.

Section Exporting.
(** [json.loads] on a string, from the standard library. *)
Variable json_loads : string -> outcome pyjson.
(** The order in which a set of strings built from the given insertions
    is iterated; it depends on the interpreter's string hashing. *)
Variable set_iter : list string -> list string.

(** All company-tag slugs of a problem, with repetitions, in the order
    of the document. *)
Definition company_slugs (p : GraphqlQuestionDetail)
  : outcome (list string) :=
  match company_tag_stats p with
  | None =>
      Raise (Exn TypeError
                 "the JSON object must be str, bytes or bytearray")
  | Some text =>
      obind (json_loads text) (fun stats =>
      obind (dict_values stats) (fun values =>
      obind (chain_slugs values) str_items))
  end.

Definition companies_field (p : GraphqlQuestionDetail) : outcome string :=
  obind (company_slugs p) (fun ss => Ok (comma_join (set_iter ss))).

(** The list handed to [writerow] for one problem; its elements are
    evaluated from left to right. *)
Definition problem_row (p : GraphqlQuestionDetail)
  : outcome (list string) :=
  obind (topics_field p) (fun topics =>
  obind (companies_field p) (fun companies =>
  Ok [cell (question_frontend_id p); cell (title p); cell (title_slug p);
      cell (category_title p); cell (frequency p);
      bool_cell (is_paid_only p); topics; companies])).

Fixpoint write_rows (csv_file : string)
    (problems_data : list GraphqlQuestionDetail) : M unit :=
  match problems_data with
  | [] => ret tt
  | problem_data :: rest =>
      row <- lift (problem_row problem_data) ;;
      writerow csv_file row ;;;
      write_rows csv_file rest
  end.

(** Writing the file, given the fetched problems: the [with] block. *)
Definition export (path : string)
    (problems_data : list GraphqlQuestionDetail) : M unit :=
  csv_file <- open_w path ;;
  writerow csv_file csv_header ;;;
  write_rows csv_file problems_data.

Definition main (args : Namespace) : M unit :=
  problems_data <- _get_problems_data (batch_size args) ;;
  export (output args) problems_data.
End Exporting.


(** ** Sample worlds and doubles *)

(** An empty disk with one flat directory: every name but the empty one
    can be opened and is its own canonical name, and text is written as it
    is. *)
Definition flat_disk : FileSystem :=
  MkFileSystem []
    (fun path =>
       if String.eqb path EmptyString
       then Raise (Exn FileNotFoundError "No such file or directory")
       else Ok path)
    (fun text => Ok text).

(** A machine with nothing in its environment and an unreachable remote
    side. *)
Definition offline : World :=
  MkWorld [] (fun _ _ => Raise (Exn ProtocolError "Connection aborted."))
          [] [] [] flat_disk [].



Definition rejected (n : nat) : outcome Z :=
  Raise (Exn ApiException "(403) Forbidden").

(** A count fetcher that reports a fixed total. *)
Definition count_double (total : Z) : M Z :=
  mock "count" [] (fun _ => Ok total).

(** A page fetcher that records its arguments and hands out [per_call n]
    on its [n]-th call. *)
Definition page_double (per_call : nat -> list GraphqlQuestionDetail)
    (offset page_size page : Z) : M (option (list GraphqlQuestionDetail)) :=
  mock "page" [offset; page_size; page] (fun n => Ok (Some (per_call n))).

(** A machine that holds a session credential. *)
Definition online (replies : nat -> request -> outcome response) : World :=
  MkWorld [("LEETCODE_SESSION_ID", "secret")] replies [] [] [] flat_disk [].

(** A remote side whose catalogue answers carry no total and no
    questions. *)
Definition null_replies (n : nat) (r : request) : outcome response :=
  match r with
  | ReqCsrfCookie _ => Ok (RespCookie "token")
  | ReqGraphqlPost _ _ _ =>
      Ok (RespGraphql (Some (MkData (Some (MkQuestionList None None)))))
  end.

(** A remote side that serves a fixed catalogue: every catalogue answer
    carries the total and the slice the request asks for. *)
Definition catalogue_replies (catalogue : list GraphqlQuestionDetail)
    (n : nat) (r : request) : outcome response :=
  match r with
  | ReqCsrfCookie _ => Ok (RespCookie "token")
  | ReqGraphqlPost _ _ body =>
      let v := variables body in
      Ok (RespGraphql (Some (MkData (Some
            (MkQuestionList
               (Some (Z.of_nat (List.length catalogue)))
               (Some (firstn (Z.to_nat (limit v))
                             (skipn (Z.to_nat (skip v)) catalogue))))))))
  end.

(** A decoder that knows the documents of a table and rejects every other
    text. *)
Definition decode_table (table : list (string * pyjson)) (text : string)
  : outcome pyjson :=
  match assoc text table with
  | Some document => Ok document
  | None => Raise (Exn JSONDecodeError "Expecting value")
  end.

(** Iteration in the order of first insertion. *)
Definition insertion_order (l : list string) : list string :=
  rev (nodup string_dec (rev l)).

(** Sample documents and problems.  The JSON texts are assembled around an
    explicit double-quote character. *)
Definition dquote : string := String (ascii_of_nat 34) EmptyString.
Definition quote (s : string) : string := (dquote ++ s ++ dquote)%string.

(** The text [{"CompanyA": [{"slug": "x"}, {"slug": "y"}],
    "CompanyB": [{"slug": "x"}]}] and its decoded form. *)
Definition two_companies_text : string :=
  ("{" ++ quote "CompanyA" ++ ": [{" ++ quote "slug" ++ ": " ++ quote "x"
   ++ "}, {" ++ quote "slug" ++ ": " ++ quote "y" ++ "}], "
   ++ quote "CompanyB" ++ ": [{" ++ quote "slug" ++ ": " ++ quote "x"
   ++ "}]}")%string.

Definition two_companies : pyjson :=
  JDict [("CompanyA", JList [JDict [("slug", JStr "x")];
                             JDict [("slug", JStr "y")]]);
         ("CompanyB", JList [JDict [("slug", JStr "x")]])].

(** A document in which CompanyA is mapped to an empty string instead of
    a list of tags. *)
Definition empty_string_text : string :=
  ("{" ++ quote "CompanyA" ++ ": " ++ quote EmptyString ++ "}")%string.

Definition empty_string_company : pyjson :=
  JDict [("CompanyA", JStr EmptyString)].

Definition sample_documents : list (string * pyjson) :=
  [(two_companies_text, two_companies);
   (empty_string_text, empty_string_company);
   ("{}", JDict [])].

Definition two_sum : GraphqlQuestionDetail :=
  MkQuestion (Some "1") (Some "Two Sum") (Some "two-sum")
             (Some "Algorithms") (Some "0.0") (Some false)
             (Some [MkTopicTag (Some "Array") (Some "array");
                    MkTopicTag (Some "Hash Table") (Some "hash-table")])
             (Some two_companies_text).

Definition add_two_numbers : GraphqlQuestionDetail :=
  MkQuestion (Some "2") (Some "Add Two Numbers") (Some "add-two-numbers")
             (Some "Algorithms") (Some "0.0") (Some false)
             (Some [MkTopicTag (Some "Linked List") (Some "linked-list")])
             (Some "{}").


(** A problem whose company statistics are [None]. *)
Definition broken_problem : GraphqlQuestionDetail :=
  MkQuestion (Some "4") (Some "Palindrome") (Some "palindrome")
             (Some "Algorithms") (Some "0.0") (Some false)
             (Some []) None.

(** The pages a double hands out: two problems, one per call. *)
Definition one_per_call (n : nat) : list GraphqlQuestionDetail :=
  nth n [[two_sum]; [add_two_numbers]] [].

(** ** Shapes of the company statistics *)

Definition is_str (x : pyjson) : bool :=
  match x with
  | JStr _ => true
  | _ => false
  end.

Definition strs (xs : list pyjson) : list string :=
  flat_map (fun x => match x with JStr s => [s] | _ => [] end) xs.

(** A tag object that carries a slug, and the slug it carries. *)
Definition slugged (d : pyjson) : bool :=
  match d with
  | JDict items =>
      match assoc "slug" items with
      | Some (JStr _) => true
      | _ => false
      end
  | _ => false
  end.

Definition slug_of (d : pyjson) : list string :=
  match d with
  | JDict items =>
      match assoc "slug" items with
      | Some (JStr s) => [s]
      | _ => []
      end
  | _ => []
  end.

Definition entries_of (v : pyjson) : list pyjson :=
  match v with
  | JList entries => entries
  | _ => []
  end.

(** The shape the data model gives the statistics: a mapping from company
    names to lists of tag objects, each with a slug. *)
Definition expected_value (v : pyjson) : bool :=
  match v with
  | JList entries => forallb slugged entries
  | _ => false
  end.

Definition expected_shape (stats : pyjson) : bool :=
  match stats with
  | JDict items => forallb (fun kv => expected_value (snd kv)) items
  | _ => false
  end.

(** The shapes the flattening goes through without an error: besides the
    expected one, a company may be mapped to an empty string or to an
    empty object, which contribute nothing. *)
Definition tolerated_value (v : pyjson) : bool :=
  match v with
  | JList entries => forallb slugged entries
  | JStr EmptyString => true
  | JDict [] => true
  | _ => false
  end.

Definition tolerated_shape (stats : pyjson) : bool :=
  match stats with
  | JDict items => forallb (fun kv => tolerated_value (snd kv)) items
  | _ => false
  end.

(** The slugs of all tags of all companies, in the order of the document,
    with repetitions. *)
Definition all_slugs (stats : pyjson) : list string :=
  match stats with
  | JDict items =>
      flat_map (fun v => flat_map slug_of (entries_of v)) (map snd items)
  | _ => []
  end.

(** What a Python set guarantees about its iteration: every element once,
    in some order. *)
Definition set_semantics (set_iter : list string -> list string) : Prop :=
  forall l, NoDup (set_iter l) /\ forall s, In s (set_iter l) <-> In s l.

(** ** The text of the file, in the words of the specification *)

(** Strings put one after the other with a separator in between. *)
Fixpoint joined_by (sep : string) (parts : list string) : string :=
  match parts with
  | [] => EmptyString
  | part :: rest =>
      match rest with
      | [] => part
      | _ :: _ => (part ++ sep ++ joined_by sep rest)%string
      end
  end.

(** A field is put in double quotes when it holds a semicolon, a double
    quote, a carriage return or a line feed; its double quotes are then
    written twice. *)
Definition must_be_quoted (field : string) : bool :=
  existsb (fun c => existsb (Ascii.eqb c)
                            [";"%char; ascii_of_nat 34; ascii_of_nat 13;
                             ascii_of_nat 10])
          (list_ascii_of_string field).

Definition with_doubled_quotes (field : string) : string :=
  string_of_list_ascii
    (flat_map (fun c => if Ascii.eqb c (ascii_of_nat 34) then [c; c] else [c])
              (list_ascii_of_string field)).

Definition delimited_field (field : string) : string :=
  if must_be_quoted field
  then (dquote ++ with_doubled_quotes field ++ dquote)%string
  else field.

Definition CRLF : string :=
  String (ascii_of_nat 13) (String (ascii_of_nat 10) EmptyString).

(** One line of a semicolon-delimited file. *)
Definition delimited_line (fields : list string) : string :=
  (joined_by ";" (map delimited_field fields) ++ CRLF)%string.

Definition delimited_text (rows : list (list string)) : string :=
  fold_right (fun row text => (delimited_line row ++ text)%string)
             EmptyString rows.

(** The first line of the file as the script writes it: the eight column
    names with nothing but a semicolon between them. *)
Definition header_line : string :=
  ("Question id;title;slug;category;frequency;is_paid;topics;companies"
   ++ CRLF)%string.

(** The first line of the file as the specification prints it, with a
    space after every semicolon. *)
Definition spaced_header_line : string :=
  ("Question id; title; slug; category; frequency; is_paid; topics; companies"
   ++ CRLF)%string.

(** How a scalar of an item shows in its row: [None] as nothing, a flag as
    [True] or [False]. *)
Definition shown (x : option string) : string :=
  match x with
  | Some s => s
  | None => EmptyString
  end.

Definition shown_flag (x : option bool) : string :=
  match x with
  | Some true => "True"
  | Some false => "False"
  | None => EmptyString
  end.

(** A text layer that writes every string as it is: no line end is
    translated and every character can be encoded. *)
Definition writes_text_as_is (fs : FileSystem) : Prop :=
  forall text, text_layer fs text = Ok text.

Section RowVocabulary.
Variable json_loads : string -> outcome pyjson.

(** An item record as the data model describes it: topic tags with
    slugs, and company statistics that decode to the expected shape. *)
Definition well_formed (p : GraphqlQuestionDetail) : Prop :=
  (exists tags,
      topic_tags p = Some tags
      /\ Forall (fun t => tag_slug t <> None) tags)
  /\ (exists text stats,
        company_tag_stats p = Some text
        /\ json_loads text = Ok stats
        /\ expected_shape stats = true).


(** The company statistics are [None], or no JSON text, or JSON of a
    shape the flattening does not go through. *)
Definition rejected_stats (p : GraphqlQuestionDetail) : Prop :=
  company_tag_stats p = None
  \/ (exists text e,
        company_tag_stats p = Some text /\ json_loads text = Raise e)
  \/ (exists text stats,
        company_tag_stats p = Some text
        /\ json_loads text = Ok stats
        /\ tolerated_shape stats = false).

Definition topic_slugs (p : GraphqlQuestionDetail) : list string :=
  match topic_tags p with
  | Some tags =>
      flat_map (fun t => match tag_slug t with
                         | Some s => [s]
                         | None => []
                         end) tags
  | None => []
  end.

(** [s] is the slug of a tag listed under some company of [p]. *)
Definition company_slug_of (p : GraphqlQuestionDetail) (s : string)
  : Prop :=
  exists text items company entries d,
    company_tag_stats p = Some text
    /\ json_loads text = Ok (JDict items)
    /\ In (company, JList entries) items
    /\ In d entries
    /\ slug_of d = [s].

(** The eight fields of the row of [p]: six scalars as they are, the
    topic slugs joined by commas in their order, and the company slugs,
    each once, joined by commas in some order. *)
Definition is_row_of (p : GraphqlQuestionDetail) (row : list string)
  : Prop :=
  exists companies,
    row = [shown (question_frontend_id p); shown (title p);
           shown (title_slug p); shown (category_title p);
           shown (frequency p); shown_flag (is_paid_only p);
           joined_by "," (topic_slugs p); joined_by "," companies]
    /\ NoDup companies
    /\ forall s, In s companies <-> company_slug_of p s.
End RowVocabulary.

(** The lines of a file made of the given records. *)
Definition csv_lines (rows : list (list string)) : string :=
  fold_right (fun row text => (Csv.format_row row ++ text)%string)
             EmptyString rows.

(** ** Vocabulary of the statements *)

(** [n] is the ceiling of the exact quotient [x / y], for positive [y]. *)
Definition is_ceiling (n x y : Z) : Prop :=
  (n - 1) * y < x <= n * y.

(** The slice of the catalogue a request asks for: items [skip] up to, but
    not including, [skip + limit]. *)
Definition window_start (q : GraphqlQuery) : Z := skip (variables q).
Definition window_stop (q : GraphqlQuery) : Z :=
  skip (variables q) + limit (variables q).

(** Every request a computation sends satisfies [P]. *)
Definition sends_only {A} (P : request -> Prop) (c : M A) : Prop :=
  forall w, exists new,
    sent (snd (c w)) = sent w ++ new /\ Forall P new.

(** A request of the page fetcher for the given window: the cookie lookup
    of the client, or the catalogue query itself. *)
Definition page_traffic (offset page_size page : Z) (r : request) : Prop :=
  match r with
  | ReqCsrfCookie _ => True
  | ReqGraphqlPost _ _ body => body = page_request offset page_size page
  end.

(** ** Scripted fetchers and remote sides *)

(** A page fetcher that records its arguments and whose [n]-th call ends as
    [behaviour n] says: with a list, with [None], or with an error. *)
Definition scripted_page
    (behaviour : nat -> outcome (option (list GraphqlQuestionDetail)))
    (offset page_size page : Z) : M (option (list GraphqlQuestionDetail)) :=
  mock "page" [offset; page_size; page] behaviour.

(** The log record of a caught failure of the attempt numbered [attempt]
    (counting from 0). *)
Definition attempt_record (times attempt : Z) : log_record :=
  LogException "Exception occured, try %s/%s" [attempt + 1; times].

(** A remote side that is down for good: every request ends in a protocol
    error. *)
Definition always_failing (n : nat) (r : request) : outcome response :=
  Raise (Exn ProtocolError "Connection aborted.").

(** A remote side that serves a catalogue but drops the second request it
    receives. *)
Definition hiccup (catalogue : list GraphqlQuestionDetail)
    (n : nat) (r : request) : outcome response :=
  if (n =? 1)%nat then Raise (Exn ProtocolError "Connection aborted.")
  else catalogue_replies catalogue n r.

(** The error, if any, with which the driver's loop ends on what the page
    fetcher hands back: the fetcher's own error, or the [TypeError] of
    extending a list by [None]. *)
Definition page_failure
    (o : outcome (option (list GraphqlQuestionDetail))) : option exn :=
  match o with
  | Raise e => Some e
  | Ok None => Some (Exn TypeError "'NoneType' object is not iterable")
  | Ok (Some _) => None
  end.

(** One good page, then the retry budget of the fetcher is used up. *)
Definition second_page_down (n : nat)
  : outcome (option (list GraphqlQuestionDetail)) :=
  match n with
  | O => Ok (Some [two_sum])
  | _ => Raise (Exn ProtocolError "Connection aborted.")
  end.

(** The machine holds the credential [session] and its remote side serves
    [catalogue], slice by slice. *)
Definition serves (catalogue : list GraphqlQuestionDetail)
    (session : string) (w : World) : Prop :=
  assoc "LEETCODE_SESSION_ID" (environ w) = Some session
  /\ forall n r, remote w n r = catalogue_replies catalogue n r.

(** The slice of the catalogue a page request asks for. *)
Definition catalogue_slice (catalogue : list GraphqlQuestionDetail)
    (page_size page : Z) : list GraphqlQuestionDetail :=
  firstn (Z.to_nat page_size)
         (skipn (Z.to_nat (0 + page * page_size)) catalogue).

(** A computation that leaves every file as it is. *)
Definition keeps_files {A} (c : M A) : Prop :=
  forall w, files (snd (c w)) = files w.


(** A problem whose topic tags are [None]. *)
Definition untagged_problem : GraphqlQuestionDetail :=
  MkQuestion (Some "5") (Some "Zigzag") (Some "zigzag")
             (Some "Algorithms") (Some "0.0") (Some false)
             None (Some "{}").

(** The text layer of a locale that encodes ASCII only. *)
Definition ascii_only (text : string) : outcome string :=
  if forallb (fun c => (nat_of_ascii c <? 128)%nat)
             (list_ascii_of_string text)
  then Ok text
  else Raise (Exn UnicodeEncodeError "'ascii' codec can't encode character").

Definition ascii_disk : FileSystem :=
  MkFileSystem [] (open_target flat_disk) ascii_only.

(** The same machine with another file system. *)
Definition on_disk (fs : FileSystem) (w : World) : World :=
  MkWorld (environ w) (remote w) (sent w) (slept w) (logged w) fs (calls w).

(** A problem whose title starts with a letter outside ASCII. *)
Definition accented_problem : GraphqlQuestionDetail :=
  MkQuestion (Some "6") (Some (String (ascii_of_nat 233) "toile"))
             (Some "etoile") (Some "Algorithms") (Some "0.0") (Some false)
             (Some []) (Some "{}").

(** A remote side whose catalogue answers carry no data at all. *)
Definition no_data (n : nat) (r : request) : outcome response :=
  match r with
  | ReqCsrfCookie _ => Ok (RespCookie "token")
  | ReqGraphqlPost _ _ _ => Ok (RespGraphql None)
  end.

(** * Properties *)

(** ** Retry decorator *)

Section RetryFacts.
Context {A : Type}.
Variable name : string.
Variable args : list Z.
Variable behaviour : nat -> outcome A.
Variable times delay : Z.
Variable exceptions : list exn_class.
Hypothesis delay_nonneg : 0 <= delay.

Let func : M A := mock name args behaviour.


Lemma call_count_record_call (w : World) :
  call_count name (record_call name args w) = S (call_count name w).
Proof.
  unfold call_count, calls_to, record_call; simpl.
  rewrite filter_app, length_app; simpl.
  rewrite String.eqb_refl; simpl. lia.
Qed.



End RetryFacts.

Lemma length_range (n : Z) : List.length (range n) = Z.to_nat n.
Proof. unfold range. now rewrite length_map, length_seq. Qed.

(** With an attempt ceiling of 1 or less there is no guarded attempt: the
    wrapper logs and calls the function once. *)
Lemma retry_single_attempt {A} (T D : Z) (exceptions : list exn_class)
    (func : M A) :
  T <= 1 ->
  retry T exceptions D func = (logging (LogError "Last try") ;;; func).
Proof.
  intros HT. unfold retry, range.
  replace (Z.to_nat (T - 1)) with 0%nat by lia. reflexivity.
Qed.





(** C5. A wrapped function that raises an error outside the transient set
    on its first call: the wrapper calls it exactly once, takes no sleep,
    and the error reaches the caller at once. *)
Theorem retry_propagates_other_errors
    (A : Type) (name : string) (args : list Z)
    (behaviour : nat -> outcome A)
    (T D : Z) (exceptions : list exn_class) (e : exn) (w : World) :
  call_count name w = 0%nat ->
  behaviour 0%nat = Raise e ->
  isinstance e exceptions = false ->
  exists w',
    retry T exceptions D (mock name args behaviour) w = (Raise e, w')
    /\ call_count name w' = 1%nat
    /\ slept w' = slept w.
Proof.
  intros Hfresh Hb He. unfold retry.
  destruct (range (T - 1)) as [|attempt rest].
  - eexists. simpl. unfold bind, logging, mock; simpl.
    change (call_count name (MkWorld (environ w) (remote w) (sent w)
              (slept w) (logged w ++ [LogError "Last try"]) (files w)
              (calls w))) with (call_count name w).
    rewrite Hfresh, Hb. split; [reflexivity|]. split; [|reflexivity].
    rewrite (call_count_record_call name args). unfold call_count, calls_to; simpl.
    unfold call_count, calls_to in Hfresh. now rewrite Hfresh.
  - eexists. simpl. unfold try_except, mock.
    rewrite Hfresh, Hb, He. split; [reflexivity|]. split; [|reflexivity].
    rewrite (call_count_record_call name args). now rewrite Hfresh.
Qed.

Lemma retry_propagates_other_errors_witness :
  exists w',
    retry 3 [ProtocolError] 5 (mock "fetch" [] rejected) offline
    = (Raise (Exn ApiException "(403) Forbidden"), w')
    /\ call_count "fetch" w' = 1%nat
    /\ slept w' = slept offline.
Proof.
  apply (retry_propagates_other_errors Z "fetch" [] rejected 3 5
           [ProtocolError] (Exn ApiException "(403) Forbidden") offline);
    reflexivity.
Defined.

(** ** Integer division through binary64 *)

Lemma div_half_even_cases (n d : Z) :
  0 < d ->
  (div_half_even n d = n / d /\ 2 * (n mod d) <= d)
  \/ (div_half_even n d = n / d + 1 /\ d <= 2 * (n mod d)).
Proof.
  intros Hd. unfold div_half_even.
  destruct (Z.ltb_spec (2 * (n mod d)) d); [left; lia|].
  destruct (Z.ltb_spec d (2 * (n mod d))); [right; lia|].
  destruct (Z.even (n / d)); [left | right]; lia.
Qed.

Lemma ceil_div_bounds (m s : Z) :
  0 < s -> (- (- m / s) - 1) * s < m <= - (- m / s) * s.
Proof.
  intros Hs.
  pose proof (Z.div_mod (- m) s ltac:(lia)).
  pose proof (Z.mod_pos_bound (- m) s Hs). nia.
Qed.

Lemma quotient_ulp_exp_normal (a b : Z) :
  1 <= a -> 1 <= b ->
  let e := quotient_ulp_exp a b in
  Z.log2 b - Z.log2 a <= 1020 ->
  2 ^ 52 * scaled_den b e <= scaled_num a e.
Proof.
  intros Ha Hb e Hrange.
  pose proof (Z.log2_spec a ltac:(lia)) as [Ha1 Ha2].
  pose proof (Z.log2_spec b ltac:(lia)) as [Hb1 Hb2].
  pose proof (Z.log2_nonneg a) as Hla. pose proof (Z.log2_nonneg b) as Hlb.
  set (la := Z.log2 a) in *. set (lb := Z.log2 b) in *.
  assert (H0 : 2 ^ 52 * scaled_den b (la - lb - 53)
               <= scaled_num a (la - lb - 53)).
  { unfold scaled_den, scaled_num.
    destruct (Z.le_gt_cases 0 (la - lb - 53)) as [He|He].
    - rewrite (Z.max_r 0 (la - lb - 53)), (Z.max_l 0 (- (la - lb - 53))) by lia.
      replace (2 ^ 52 * (b * 2 ^ (la - lb - 53)))
        with (b * 2 ^ (la - lb - 1)).
      2:{ replace (la - lb - 1) with (52 + (la - lb - 53)) by lia.
          rewrite Z.pow_add_r by lia. ring. }
      assert (2 ^ (lb + 1) * 2 ^ (la - lb - 1) = 2 ^ la).
      { rewrite <- Z.pow_add_r by lia. f_equal. lia. }
      assert (0 < 2 ^ (la - lb - 1)) by (apply Z.pow_pos_nonneg; lia).
      nia.
    - rewrite (Z.max_l 0 (la - lb - 53)), (Z.max_r 0 (- (la - lb - 53))) by lia.
      assert (2 ^ la * 2 ^ (- (la - lb - 53)) = 2 ^ 52 * 2 ^ (lb + 1)).
      { rewrite <- !Z.pow_add_r by lia. f_equal. lia. }
      assert (0 < 2 ^ (- (la - lb - 53))) by (apply Z.pow_pos_nonneg; lia).
      nia. }
  unfold e, quotient_ulp_exp, DBL_MANT_DIG, DBL_MIN_ULP_EXP.
  fold la lb.
  destruct (Z.leb_spec (2 ^ 53)
              (scaled_num a (la - lb - 53) / scaled_den b (la - lb - 53)))
    as [Hbig|Hsmall].
  - rewrite Z.max_l by lia.
    assert (Hd0 : 0 < scaled_den b (la - lb - 53)).
    { unfold scaled_den. apply Z.mul_pos_pos; [lia|].
      apply Z.pow_pos_nonneg; lia. }
    assert (Hn : 2 ^ 53 * scaled_den b (la - lb - 53)
                 <= scaled_num a (la - lb - 53)).
    { pose proof (Z.mul_div_le (scaled_num a (la - lb - 53))
                    (scaled_den b (la - lb - 53)) Hd0). nia. }
    revert Hn. unfold scaled_den, scaled_num.
    destruct (Z.le_gt_cases 0 (la - lb - 53)) as [He|He].
    + rewrite (Z.max_r 0 (la - lb - 53)), (Z.max_l 0 (- (la - lb - 53))),
        (Z.max_r 0 (la - lb - 53 + 1)), (Z.max_l 0 (- (la - lb - 53 + 1)))
        by lia.
      rewrite (Z.pow_add_r 2 (la - lb - 53) 1) by lia.
      change (2 ^ 53) with (2 * 2 ^ 52). change (2 ^ 1) with 2. lia.
    + rewrite (Z.max_l 0 (la - lb - 53)), (Z.max_r 0 (- (la - lb - 53))),
        (Z.max_l 0 (la - lb - 53 + 1)), (Z.max_r 0 (- (la - lb - 53 + 1)))
        by lia.
      replace (- (la - lb - 53)) with (- (la - lb - 53 + 1) + 1) by lia.
      rewrite (Z.pow_add_r 2 (- (la - lb - 53 + 1)) 1) by lia.
      change (2 ^ 53) with (2 * 2 ^ 52). change (2 ^ 1) with 2. lia.
  - rewrite Z.max_l by lia. exact H0.
Qed.

Lemma ceil_true_divide_exact (a b : Z) :
  1 <= a <= 2 ^ 53 -> 1 <= b <= 2 ^ 53 ->
  exists x,
    true_divide a b = Ok x
    /\ (math_ceil x - 1) * b < a <= math_ceil x * b.
Proof.
  intros Ha Hb.
  assert (Hlb : Z.log2 b <= 53).
  { change 53 with (Z.log2 (2 ^ 53)). apply Z.log2_le_mono. lia. }
  pose proof (Z.log2_nonneg a) as Hla.
  pose proof (quotient_ulp_exp_normal a b ltac:(lia) ltac:(lia) ltac:(lia))
    as Hnorm.
  unfold true_divide.
  destruct (Z.eqb_spec b 0) as [|_]; [lia|].
  destruct (Z.eqb_spec a 0) as [|_]; [lia|].
  rewrite (Z.abs_eq a), (Z.abs_eq b) by lia.
  rewrite (Z.sgn_pos a), (Z.sgn_pos b) by lia.
  cbv zeta in Hnorm.
  set (e := quotient_ulp_exp a b) in *.
  destruct (Z.le_gt_cases 0 e) as [He|He].
  - (* the quotient is an integer of 53 or 54 bits *)
    unfold scaled_den, scaled_num in *.
    rewrite (Z.max_r 0 e), (Z.max_l 0 (- e)) in * by lia.
    change (2 ^ 0) with 1 in *. rewrite Z.mul_1_r in *.
    assert (Hbe : b * 2 ^ e <= 2).
    { apply (Z.mul_le_mono_pos_l _ _ (2 ^ 52)); [reflexivity|].
      change (2 ^ 52 * 2) with (2 ^ 53). lia. }
    assert (He01 : e = 0 \/ e = 1).
    { destruct (Z.le_gt_cases 2 e) as [H2|H2]; [|lia].
      pose proof (Z.pow_le_mono_r 2 2 e ltac:(lia) H2) as Hp.
      change (2 ^ 2) with 4 in Hp.
      assert (1 * 2 ^ e <= b * 2 ^ e)
        by (apply Z.mul_le_mono_nonneg_r; lia).
      lia. }
    assert (Hb12 : b * 2 ^ e = 1 \/ b * 2 ^ e = 2).
    { destruct He01; subst e; [change (2 ^ 0) with 1 in * | change (2 ^ 1) with 2 in *]; lia. }
    assert (Hm : div_half_even a (b * 2 ^ e) * (b * 2 ^ e) = a).
    { unfold div_half_even. destruct Hb12 as [H12|H12]; rewrite H12 in *.
      - rewrite Z.div_1_r, Z.mod_1_r. simpl. lia.
      - assert (a = 2 ^ 53).
        { change (2 ^ 53) with (2 ^ 52 * 2) in *. lia. }
        subst a. reflexivity. }
    set (m := div_half_even a (b * 2 ^ e)) in *.
    assert (Hov : ((0 <=? e) && (2 ^ DBL_MAX_EXP <=? m * 2 ^ e))%bool = false).
    { apply Bool.andb_false_iff. right. apply Z.leb_gt.
      assert (0 < 2 ^ e) by (apply Z.pow_pos_nonneg; lia).
      assert (m * 2 ^ e <= 2 ^ 53) by nia.
      unfold DBL_MAX_EXP.
      assert (2 ^ 53 < 2 ^ 1024) by (apply Z.pow_lt_mono_r; lia). lia. }
    rewrite Hov. eexists. split; [reflexivity|].
    unfold math_ceil; cbn [mant expo].
    destruct (Z.leb_spec 0 e); [|lia].
    replace (1 * 1 * m) with m by lia.
    assert (Hx : m * 2 ^ e * b = a) by lia.
    rewrite Z.mul_sub_distr_r, Hx. lia.
  - (* the quotient has a fractional part *)
    unfold scaled_den, scaled_num in *.
    rewrite (Z.max_l 0 e), (Z.max_r 0 (- e)) in * by lia.
    change (2 ^ 0) with 1 in *. rewrite Z.mul_1_r in *.
    assert (Hs : 2 <= 2 ^ (- e)).
    { change 2 with (2 ^ 1) at 1. apply Z.pow_le_mono_r; lia. }
    set (s := 2 ^ (- e)) in *.
    set (m := div_half_even (a * s) b).
    destruct (Z.leb_spec 0 e) as [|_]; [lia|]. simpl andb.
    eexists. split; [reflexivity|].
    unfold math_ceil; cbn [mant expo].
    destruct (Z.leb_spec 0 e) as [|_]; [lia|]. fold s.
    replace (1 * 1 * m) with m by lia.
    pose proof (ceil_div_bounds m s ltac:(lia)) as Hceil.
    set (n := - (- m / s)) in *.
    pose proof (Z.div_mod (a * s) b ltac:(lia)) as Hdm.
    pose proof (Z.mod_pos_bound (a * s) b ltac:(lia)) as Hr.
    destruct (div_half_even_cases (a * s) b ltac:(lia)) as [[Hq Hle]|[Hq Hle]];
      fold m in Hq.
    all: set (q := a * s / b) in *; set (r := (a * s) mod b) in *.
    + split.
      * (* (n - 1) * b < a *)
        destruct (Z.le_gt_cases a ((n - 1) * b)) as [Hc|Hc]; [|lia].
        exfalso. assert ((n - 1) * s * b <= q * b) by nia.
        assert (a * s <= (n - 1) * b * s) by nia. nia.
      * (* a <= n * b *)
        destruct (Z.le_gt_cases a (n * b)) as [Hc|Hc]; [lia|].
        exfalso.
        assert (Hrs : s <= r).
        { assert (n * b * s + s <= a * s) by nia. nia. }
        assert (2 * s <= b) by lia.
        assert (a * s <= 2 ^ 53 * s) by nia.
        assert (2 ^ 53 * s <= 2 ^ 52 * b) by lia.
        assert (a * s = 2 ^ 52 * b) by lia.
        assert (r = 0).
        { unfold r. replace (a * s) with (2 ^ 52 * b) by lia.
          apply Z.mod_mul. lia. }
        lia.
    + split.
      * destruct (Z.le_gt_cases a ((n - 1) * b)) as [Hc|Hc]; [|lia].
        exfalso. assert ((n - 1) * s <= q) by lia.
        assert ((n - 1) * s * b <= q * b) by nia.
        assert (a * s <= (n - 1) * b * s) by nia. nia.
      * destruct (Z.le_gt_cases a (n * b)) as [Hc|Hc]; [lia|].
        exfalso. assert (n * b * s + s <= a * s) by nia. nia.
Qed.

(** Up to 2^53 the detour through binary64 does no harm: the number of
    pages is the exact ceiling. *)
Lemma page_count_exact (total page_size : Z) :
  0 <= total -> total + 1 <= 2 ^ 53 -> 0 < page_size <= 2 ^ 53 ->
  exists n,
    page_count 0 total page_size = Ok n
    /\ is_ceiling n (total + 1) page_size.
Proof.
  intros Ht Htop Hp. unfold page_count.
  replace (total - 0 + 1) with (total + 1) by lia.
  destruct (ceil_true_divide_exact (total + 1) page_size)
    as (x & Hx & Hceil); [lia | lia |].
  rewrite Hx. eexists. split; [reflexivity | exact Hceil].
Qed.

(** ** Pagination driver *)

Lemma calls_to_record_call (name : string) (args : list Z) (w : World) :
  calls_to name (record_call name args w)
  = calls_to name w ++ [MkCall name args].
Proof.
  unfold calls_to, record_call; simpl.
  rewrite filter_app; simpl. now rewrite String.eqb_refl.
Qed.

Section DriverFacts.
Variable per_call : nat -> list GraphqlQuestionDetail.
Variable start page_size : Z.

Let page_call (page : Z) : call := MkCall "page" [start; page_size; page].

(** With the double in place the loop cannot fail: it calls the double
    once per page index, in the order of the list, and appends what each
    call hands out. *)
Lemma fetch_pages_double :
  forall (pages : list Z) (problems : list GraphqlQuestionDetail)
         (w : World),
  exists w',
    fetch_pages (page_double per_call) start page_size pages problems w
    = (Ok (problems
           ++ List.concat (map per_call (seq (call_count "page" w)
                                        (List.length pages)))), w')
    /\ calls_to "page" w' = calls_to "page" w ++ map page_call pages.
Proof.
  induction pages as [|page rest IH]; intros problems w.
  - exists w. simpl. unfold ret. now rewrite !app_nil_r.
  - destruct (IH (problems ++ per_call (call_count "page" w))
                 (record_call "page" [start; page_size; page] w))
      as (w' & Hrun & Hcalls).
    exists w'. split.
    + simpl fetch_pages. unfold bind at 1. unfold page_double at 1, mock.
      rewrite Hrun, call_count_record_call.
      simpl List.length. simpl seq. simpl map. simpl List.concat. now rewrite <- app_assoc.
    + rewrite Hcalls, calls_to_record_call, <- app_assoc. reflexivity.
Qed.

End DriverFacts.

Lemma tqdm_range_fits (n : Z) :
  n <= 2 ^ 63 - 1 -> tqdm_range n = Ok (range n).
Proof.
  intros Hn. unfold tqdm_range.
  now destruct (Z.ltb_spec (2 ^ 63 - 1) n); [lia|].
Qed.

(** A ceiling of a quotient of numbers up to 2^53 is within the reach of
    [len]. *)
Lemma ceiling_fits (n x y : Z) :
  is_ceiling n x y -> 0 < y -> x <= 2 ^ 53 -> n <= 2 ^ 63 - 1.
Proof.
  unfold is_ceiling. intros [Hlow _] Hy Hx.
  change (2 ^ 53) with 9007199254740992 in Hx.
  change (2 ^ 63 - 1) with 9223372036854775807. nia.
Qed.

(** Within the same bounds the last drawing of the bar goes through. *)
Lemma tqdm_close_small (n y : Z) :
  Z.abs (n * y) <= 2 ^ 54 -> tqdm_close n y = Ok tt.
Proof.
  intros Hsmall. unfold tqdm_close, float_fits.
  assert (Hlt : 2 ^ 54 < 2 ^ 1024 - 2 ^ 970) by (vm_compute; reflexivity).
  destruct (Z.ltb_spec (Z.abs (n * y)) (2 ^ 1024 - 2 ^ 970)) as [_|Hbig];
    [reflexivity|].
  exfalso. apply (Z.lt_irrefl (2 ^ 54)).
  eapply Z.lt_le_trans; [exact Hlt|].
  eapply Z.le_trans; [exact Hbig | exact Hsmall].
Qed.

Lemma tqdm_close_ceiling (n x y : Z) :
  is_ceiling n x y -> 0 < x <= 2 ^ 53 -> 0 < y <= 2 ^ 53 ->
  tqdm_close (Z.of_nat (List.length (range n))) y = Ok tt.
Proof.
  unfold is_ceiling. intros [Hlow Hup] Hx Hy.
  rewrite length_range. apply tqdm_close_small.
  change (2 ^ 54) with 18014398509481984.
  change (2 ^ 53) with 9007199254740992 in Hx, Hy.
  assert (0 < n) by nia.
  rewrite Z2Nat.id by lia. rewrite Z.abs_eq by nia. nia.
Qed.


(** The driver run against a page double, for any count fetcher that
    succeeds. *)
Lemma get_problems_data_double
    (per_call : nat -> list GraphqlQuestionDetail) (page_size : Z)
    (count_fetcher : M Z) (total n : Z) (w w1 : World) :
  count_fetcher w = (Ok total, w1) ->
  calls_to "page" w1 = [] ->
  page_count 0 total page_size = Ok n ->
  n <= 2 ^ 63 - 1 ->
  tqdm_close (Z.of_nat (List.length (range n))) page_size = Ok tt ->
  exists w',
    get_problems_data count_fetcher (page_double per_call) page_size w
    = (Ok (List.concat (map per_call (seq 0 (Z.to_nat n)))), w')
    /\ calls_to "page" w'
       = map (fun page => MkCall "page" [0; page_size; page]) (range n).
Proof.
  intros Hcount Hfresh Hpages Hfits Hclose.
  set (w2 := snd (logging (LogInfo "Fetching %s problems %s per page"
                             [total - 0 + 1; page_size]) w1)).
  assert (Hw2 : calls_to "page" w2 = []) by exact Hfresh.
  destruct (fetch_pages_double per_call 0 page_size (range n) [] w2)
    as (w' & Hrun & Hcalls).
  exists w'. split.
  - unfold get_problems_data. unfold bind at 1. rewrite Hcount.
    cbv zeta. unfold bind at 1.
    change (logging (LogInfo "Fetching %s problems %s per page"
                       [total - 0 + 1; page_size]) w1) with (Ok tt, w2).
    cbv iota. unfold bind at 1. unfold lift at 1. rewrite Hpages.
    unfold bind at 1. unfold lift at 1. rewrite (tqdm_range_fits n Hfits).
    unfold bind at 1. rewrite Hrun.
    unfold bind at 1. unfold lift at 1. rewrite Hclose.
    rewrite length_range. unfold call_count. rewrite Hw2.
    reflexivity.
  - rewrite Hcalls, Hw2. reflexivity.
Qed.

Lemma count_double_run (total : Z) (w : World) :
  count_double total w = (Ok total, record_call "count" [] w).
Proof. reflexivity. Qed.

Lemma calls_to_page_after_count (w : World) :
  calls_to "page" (record_call "count" [] w) = calls_to "page" w.
Proof.
  unfold calls_to, record_call; simpl.
  rewrite filter_app; simpl. now rewrite app_nil_r.
Qed.

(** Building the client on a machine that holds the credential, when the
    cookie lookup is answered. *)
Lemma client_answered (w : World) (session token : string) :
  assoc "LEETCODE_SESSION_ID" (environ w) = Some session ->
  remote w (List.length (sent w)) (ReqCsrfCookie session)
  = Ok (RespCookie token) ->
  _get_leetcode_api_client w
  = (Ok (MkApi token token session "https://leetcode.com"),
     MkWorld (environ w) (remote w) (sent w ++ [ReqCsrfCookie session])
             (slept w) (logged w) (files w) (calls w)).
Proof.
  intros Henv Hcookie. unfold _get_leetcode_api_client.
  unfold bind at 1. unfold os_environ at 1. rewrite Henv.
  unfold bind at 1. unfold get_csrf_cookie at 1. unfold bind at 1.
  unfold transport at 1. now rewrite Hcookie.
Qed.

(** One post through a client, after the pacing pause. *)
Lemma paced_post (api : DefaultApi) (body : GraphqlQuery) (w : World) :
  (time_sleep 2 ;;; graphql_post api body) w
  = (match remote w (List.length (sent w))
                  (ReqGraphqlPost (x_csrftoken api) (LEETCODE_SESSION api)
                                  body) with
     | Ok (RespGraphql (Some data)) => Ok data
     | Ok (RespGraphql None) =>
         Raise (Exn ValueError
                    "Invalid value for `data`, must not be `None`")
     | Ok (RespCookie _) => Raise (Exn ApiException "unexpected reply")
     | Raise e => Raise e
     end,
     MkWorld (environ w) (remote w)
             (sent w ++ [ReqGraphqlPost (x_csrftoken api)
                                        (LEETCODE_SESSION api) body])
             (slept w ++ [2]) (logged w) (files w) (calls w)).
Proof.
  unfold bind at 1. unfold time_sleep. change (2 <? 0) with false.
  cbv iota. unfold graphql_post, bind, transport.
  cbn [environ remote sent slept logged files calls].
  destruct (remote w _ _) as [[token|[data|]]|e]; reflexivity.
Qed.

Lemma bind_assoc_run {A B C} (c : M A) (k : A -> M B) (h : B -> M C)
    (w : World) :
  bind (bind c k) h w = bind c (fun a => bind (k a) h) w.
Proof. unfold bind. destruct (c w) as [[a|e] w1]; reflexivity. Qed.

(** What the count fetcher does on a machine that holds the credential,
    when the remote side answers both of its requests. *)
Lemma get_problems_count_answered
    (w : World) (session token : string) (question_list : QuestionList) :
  assoc "LEETCODE_SESSION_ID" (environ w) = Some session ->
  remote w (List.length (sent w)) (ReqCsrfCookie session)
  = Ok (RespCookie token) ->
  remote w (S (List.length (sent w)))
         (ReqGraphqlPost token session count_request)
  = Ok (RespGraphql (Some (MkData (Some question_list)))) ->
  _get_problems_count w
  = (Ok (or_zero (total_num question_list)),
     MkWorld (environ w) (remote w)
             (sent w ++ [ReqCsrfCookie session;
                         ReqGraphqlPost token session count_request])
             (slept w ++ [2]) (logged w) (files w) (calls w)).
Proof.
  intros Henv Hcookie Hpost.
  unfold _get_problems_count, retry.
  change (range (3 - 1)) with [0; 1]. cbn [wrapper_loop].
  unfold try_except, get_problems_count_body.
  unfold bind at 1. rewrite (client_answered w session token Henv Hcookie).
  rewrite <- bind_assoc_run. unfold bind at 1. rewrite paced_post.
  cbn [environ remote sent slept logged files calls
       x_csrftoken LEETCODE_SESSION].
  rewrite length_app, Nat.add_1_r, Hpost.
  unfold bind, getattr, ret. cbn [problemset_question_list].
  now rewrite <- app_assoc.
Qed.

(** C1, as stated, fails: on a machine whose remote side reports no total,
    the count fetcher returns 0, and yet the driver asked for 300 problems
    per page does invoke the page fetcher. *)
Lemma null_total_still_fetches_a_page :
  fst (_get_problems_count (online null_replies)) = Ok 0
  /\ call_count "page"
       (snd (get_problems_data _get_problems_count
               (page_double (fun _ => [])) 300 (online null_replies)))
     <> 0%nat.
Proof. split; [reflexivity | vm_compute; discriminate]. Qed.

(** C1, amended.  When the total-count field of the count response is
    absent or null the count fetcher returns 0; with that total and a page
    size from 1 to 2^53 the driver fetches exactly one page: the page
    fetcher is invoked once, for page index 0. *)
Theorem null_total_counts_zero_and_fetches_one_page
    (w : World) (session token : string) (question_list : QuestionList)
    (per_call : nat -> list GraphqlQuestionDetail) (page_size : Z) :
  assoc "LEETCODE_SESSION_ID" (environ w) = Some session ->
  remote w (List.length (sent w)) (ReqCsrfCookie session)
  = Ok (RespCookie token) ->
  remote w (S (List.length (sent w)))
         (ReqGraphqlPost token session count_request)
  = Ok (RespGraphql (Some (MkData (Some question_list)))) ->
  total_num question_list = None ->
  0 < page_size <= 2 ^ 53 ->
  calls_to "page" w = [] ->
  fst (_get_problems_count w) = Ok 0
  /\ exists w',
       get_problems_data _get_problems_count (page_double per_call)
                         page_size w
       = (Ok (per_call 0%nat), w')
       /\ calls_to "page" w' = [MkCall "page" [0; page_size; 0]].
Proof.
  intros Henv Hcookie Hpost Hnull Hsize Hfresh.
  pose proof (get_problems_count_answered w session token question_list
                Henv Hcookie Hpost) as Hcount.
  rewrite Hnull in Hcount. cbn [or_zero] in Hcount.
  split; [now rewrite Hcount|].
  destruct (page_count_exact 0 page_size) as (n & Hn & Hceil);
    [lia | lia | lia |].
  assert (n = 1) by (unfold is_ceiling in Hceil; nia). subst n.
  destruct (get_problems_data_double per_call page_size _ 0 1 w _
              Hcount Hfresh Hn ltac:(vm_compute; discriminate)
              (tqdm_close_ceiling 1 (0 + 1) page_size Hceil
                 ltac:(split; [lia | vm_compute; discriminate]) Hsize))
    as (w' & Hrun & Hcalls).
  exists w'. split; [|exact Hcalls].
  rewrite Hrun. simpl. now rewrite app_nil_r.
Qed.

Lemma null_total_counts_zero_and_fetches_one_page_witness :
  fst (_get_problems_count (online null_replies)) = Ok 0
  /\ exists w',
       get_problems_data _get_problems_count (page_double (fun _ => []))
                         300 (online null_replies)
       = (Ok [], w')
       /\ calls_to "page" w' = [MkCall "page" [0; 300; 0]].
Proof.
  apply (null_total_counts_zero_and_fetches_one_page
           (online null_replies) "secret" "token" (MkQuestionList None None)
           (fun _ => []) 300);
    try reflexivity.
  split; [lia | vm_compute; discriminate].
Defined.

(** C2, as stated, fails outside the range of exact binary64 arithmetic:
    the quotient goes through a binary64.  With a total of 2^53 and one
    problem per page the page fetcher is invoked 2^53 times, one time less
    than the ceiling of (2^53 + 1) / 1; with a total of 3000 and a page
    size of 2^1100 the quotient underflows to zero and the page fetcher is
    not invoked at all, while the ceiling of 3001 / 2^1100 is 1. *)
Lemma page_fetches_fall_short_of_ceiling :
  (exists items w',
     get_problems_data (count_double (2 ^ 53)) (page_double (fun _ => []))
                       1 offline
     = (Ok items, w')
     /\ Z.of_nat (call_count "page" w') = 2 ^ 53
     /\ ~ is_ceiling (Z.of_nat (call_count "page" w')) (2 ^ 53 + 1) 1)
  /\ (exists items w',
        get_problems_data (count_double 3000) (page_double (fun _ => []))
                          (2 ^ 1100) offline
        = (Ok items, w')
        /\ Z.of_nat (call_count "page" w') = 0
        /\ ~ is_ceiling (Z.of_nat (call_count "page" w'))
                        (3000 + 1) (2 ^ 1100)).
Proof.
  split.
  - assert (Hn : page_count 0 (2 ^ 53) 1 = Ok (2 ^ 53))
      by (vm_compute; reflexivity).
    assert (Hclose : tqdm_close (Z.of_nat (List.length (range (2 ^ 53)))) 1
                     = Ok tt).
    { rewrite length_range, Z2Nat.id by (vm_compute; discriminate).
      vm_compute. reflexivity. }
    destruct (get_problems_data_double (fun _ => []) 1
                (count_double (2 ^ 53)) (2 ^ 53) (2 ^ 53) offline _
                (count_double_run _ _) eq_refl Hn
                ltac:(vm_compute; discriminate) Hclose)
      as (w' & Hrun & Hcalls).
    assert (Hcount : Z.of_nat (call_count "page" w') = 2 ^ 53).
    { unfold call_count. rewrite Hcalls, length_map, length_range.
      apply Z2Nat.id. apply Z.pow_nonneg. lia. }
    eexists _, w'. split; [exact Hrun|]. split; [exact Hcount|].
    rewrite Hcount. unfold is_ceiling. lia.
  - assert (Hn : page_count 0 3000 (2 ^ 1100) = Ok 0)
      by (vm_compute; reflexivity).
    destruct (get_problems_data_double (fun _ => []) (2 ^ 1100)
                (count_double 3000) 3000 0 offline _
                (count_double_run _ _) eq_refl Hn
                ltac:(vm_compute; discriminate) eq_refl)
      as (w' & Hrun & Hcalls).
    assert (Hcount : Z.of_nat (call_count "page" w') = 0).
    { unfold call_count. now rewrite Hcalls. }
    eexists _, w'. split; [exact Hrun|]. split; [exact Hcount|].
    rewrite Hcount. unfold is_ceiling. lia.
Qed.

(** C2, amended.  For every total from 0 to 2^53 - 1 and every page size
    from 1 to 2^53 the driver invokes the page fetcher exactly
    ceil((total + 1) / page_size) times. *)
Theorem page_fetches_are_ceiling
    (total page_size : Z) (per_call : nat -> list GraphqlQuestionDetail)
    (w : World) :
  0 <= total -> total + 1 <= 2 ^ 53 ->
  0 < page_size <= 2 ^ 53 ->
  calls_to "page" w = [] ->
  exists items w',
    get_problems_data (count_double total) (page_double per_call)
                      page_size w
    = (Ok items, w')
    /\ is_ceiling (Z.of_nat (call_count "page" w')) (total + 1) page_size.
Proof.
  intros Ht Htop Hsize Hfresh.
  destruct (page_count_exact total page_size Ht Htop Hsize)
    as (n & Hn & Hceil).
  destruct (get_problems_data_double per_call page_size
              (count_double total) total n w _
              (count_double_run _ _)) as (w' & Hrun & Hcalls).
  - now rewrite calls_to_page_after_count.
  - exact Hn.
  - apply (ceiling_fits n (total + 1) page_size Hceil); lia.
  - apply (tqdm_close_ceiling n (total + 1) page_size Hceil); lia.
  - eexists _, w'. split; [exact Hrun|].
    unfold call_count. rewrite Hcalls, length_map, length_range.
    rewrite Z2Nat.id; [exact Hceil|].
    unfold is_ceiling in Hceil. nia.
Qed.

Lemma page_fetches_are_ceiling_witness :
  exists items w',
    get_problems_data (count_double 2) (page_double (fun _ => []))
                      300 offline
    = (Ok items, w')
    /\ is_ceiling (Z.of_nat (call_count "page" w')) (2 + 1) 300.
Proof.
  apply (page_fetches_are_ceiling 2 300 (fun _ => []) offline).
  - lia.
  - vm_compute; discriminate.
  - split; [lia | vm_compute; discriminate].
  - reflexivity.
Defined.

(** C7. Whatever lists the page fetcher returns call after call, the
    driver returns their concatenation in the order of the calls, which is
    the order of increasing page index; the length of the result is the sum
    of the lengths of the pages.  The total ranges from 0 to 2^53 - 1 and
    the page size from 1 to 2^53, where the number of pages is the exact
    ceiling [n]. *)
Theorem driver_concatenates_pages
    (total page_size : Z) (per_call : nat -> list GraphqlQuestionDetail)
    (w : World) :
  0 <= total -> total + 1 <= 2 ^ 53 ->
  0 < page_size <= 2 ^ 53 ->
  calls_to "page" w = [] ->
  exists n items w',
    is_ceiling n (total + 1) page_size
    /\ get_problems_data (count_double total) (page_double per_call)
                         page_size w
       = (Ok items, w')
    /\ items = List.concat (map per_call (seq 0 (Z.to_nat n)))
    /\ calls_to "page" w'
       = map (fun page => MkCall "page" [0; page_size; page]) (range n)
    /\ List.length items
       = list_sum (map (fun i => List.length (per_call i))
                       (seq 0 (Z.to_nat n))).
Proof.
  intros Ht Htop Hsize Hfresh.
  destruct (page_count_exact total page_size Ht Htop Hsize)
    as (n & Hn & Hceil).
  destruct (get_problems_data_double per_call page_size
              (count_double total) total n w _
              (count_double_run _ _)) as (w' & Hrun & Hcalls).
  - now rewrite calls_to_page_after_count.
  - exact Hn.
  - apply (ceiling_fits n (total + 1) page_size Hceil); lia.
  - apply (tqdm_close_ceiling n (total + 1) page_size Hceil); lia.
  - exists n. eexists _, w'. split; [exact Hceil|].
    split; [exact Hrun|]. split; [reflexivity|].
    split; [exact Hcalls|].
    now rewrite length_concat, map_map.
Qed.

(** ** Traffic of the page fetcher *)

Section Traffic.
Variable P : request -> Prop.

Lemma sends_only_pure {A} (c : M A) :
  (forall w, sent (snd (c w)) = sent w) -> sends_only P c.
Proof.
  intros H w. exists []. split; [|constructor].
  now rewrite H, app_nil_r.
Qed.

Lemma sends_only_transport (r : request) :
  P r -> sends_only P (transport r).
Proof.
  intros Hr w. exists [r]. split; [reflexivity|].
  constructor; [exact Hr | constructor].
Qed.

Lemma sends_only_bind {A B} (c : M A) (k : A -> M B) :
  sends_only P c -> (forall a, sends_only P (k a)) ->
  sends_only P (bind c k).
Proof.
  intros Hc Hk w. unfold bind.
  destruct (Hc w) as (new1 & H1 & HP1).
  destruct (c w) as [[a|e] w1]; cbn [snd] in *.
  - destruct (Hk a w1) as (new2 & H2 & HP2).
    exists (new1 ++ new2). split.
    + now rewrite H2, H1, app_assoc.
    + apply Forall_app. now split.
  - exists new1. now split.
Qed.

Lemma sends_only_try_except {A} (body : M A) (classes : list exn_class)
    (handler : exn -> M A) :
  sends_only P body -> (forall e, sends_only P (handler e)) ->
  sends_only P (try_except body classes handler).
Proof.
  intros Hb Hh w. unfold try_except.
  destruct (Hb w) as (new1 & H1 & HP1).
  destruct (body w) as [[a|e] w1]; cbn [snd] in *.
  - exists new1. now split.
  - destruct (isinstance e classes).
    + destruct (Hh e w1) as (new2 & H2 & HP2).
      exists (new1 ++ new2). split.
      * now rewrite H2, H1, app_assoc.
      * apply Forall_app. now split.
    + exists new1. now split.
Qed.

Lemma sends_only_wrapper_loop {A} (times delay : Z)
    (exceptions : list exn_class) (func : M A) (attempts : list Z) :
  sends_only P func ->
  sends_only P (wrapper_loop times exceptions delay func attempts).
Proof.
  intros Hf. induction attempts as [|attempt rest IH]; cbn [wrapper_loop].
  - apply sends_only_bind; [now apply sends_only_pure | intros _; exact Hf].
  - apply sends_only_try_except; [exact Hf|]. intros _.
    apply sends_only_bind; [now apply sends_only_pure | intros _].
    apply sends_only_bind; [|intros _; exact IH].
    apply sends_only_pure. intros w. unfold time_sleep.
    now destruct (delay <? 0).
Qed.
End Traffic.

Lemma sends_only_getattr (P : request -> Prop) {A B} (obj : option A)
    (attr : string) (f : A -> B) :
  sends_only P (getattr obj attr f).
Proof. apply sends_only_pure. intros w. now destruct obj. Qed.

(** All the page fetcher ever sends, retries included, is the cookie
    lookup and the query for its own window. *)
Lemma page_fetcher_traffic (offset page_size page : Z) :
  sends_only (page_traffic offset page_size page)
             (_get_problems_data_page offset page_size page).
Proof.
  unfold _get_problems_data_page, retry.
  apply sends_only_wrapper_loop.
  unfold get_problems_data_page_body.
  apply sends_only_bind.
  - unfold _get_leetcode_api_client. apply sends_only_bind.
    + apply sends_only_pure. intros w. unfold os_environ.
      now destruct (assoc _ _).
    + intros session. apply sends_only_bind.
      * unfold get_csrf_cookie. apply sends_only_bind.
        -- now apply sends_only_transport.
        -- intros [token|data]; now apply sends_only_pure.
      * intros token. now apply sends_only_pure.
  - intros api. apply sends_only_bind; [now apply sends_only_pure|].
    intros _. apply sends_only_bind.
    + unfold graphql_post. apply sends_only_bind.
      * now apply sends_only_transport.
      * intros [token|[data|]]; now apply sends_only_pure.
    + intros data. apply sends_only_getattr.
Qed.

(** What the page fetcher does on a machine that holds the credential,
    when the remote side answers both of its requests. *)
Lemma get_problems_data_page_answered
    (offset page_size page : Z)
    (w : World) (session token : string) (question_list : QuestionList) :
  assoc "LEETCODE_SESSION_ID" (environ w) = Some session ->
  remote w (List.length (sent w)) (ReqCsrfCookie session)
  = Ok (RespCookie token) ->
  remote w (S (List.length (sent w)))
         (ReqGraphqlPost token session (page_request offset page_size page))
  = Ok (RespGraphql (Some (MkData (Some question_list)))) ->
  _get_problems_data_page offset page_size page w
  = (Ok (questions question_list),
     MkWorld (environ w) (remote w)
             (sent w ++ [ReqCsrfCookie session;
                         ReqGraphqlPost token session
                           (page_request offset page_size page)])
             (slept w ++ [2]) (logged w) (files w) (calls w)).
Proof.
  intros Henv Hcookie Hpost.
  unfold _get_problems_data_page, retry.
  change (range (3 - 1)) with [0; 1]. cbn [wrapper_loop].
  unfold try_except, get_problems_data_page_body.
  unfold bind at 1. rewrite (client_answered w session token Henv Hcookie).
  rewrite <- bind_assoc_run. unfold bind at 1. rewrite paced_post.
  cbn [environ remote sent slept logged files calls
       x_csrftoken LEETCODE_SESSION].
  rewrite length_app, Nat.add_1_r, Hpost.
  unfold getattr, ret. cbn [problemset_question_list].
  now rewrite <- app_assoc.
Qed.

(** C6. The page fetcher asks for the window that starts at
    [offset + page * page_size] and holds [page_size] items; for a fixed
    offset and page size the windows of consecutive page indices follow
    one another without gap, and the windows of distinct page indices do
    not overlap. *)
Theorem page_windows_tile
    (offset page_size page : Z) :
  0 < page_size ->
  skip (variables (page_request offset page_size page))
  = offset + page * page_size
  /\ limit (variables (page_request offset page_size page)) = page_size
  /\ sends_only (page_traffic offset page_size page)
                (_get_problems_data_page offset page_size page)
  /\ (forall w session token question_list,
        assoc "LEETCODE_SESSION_ID" (environ w) = Some session ->
        remote w (List.length (sent w)) (ReqCsrfCookie session)
        = Ok (RespCookie token) ->
        remote w (S (List.length (sent w)))
               (ReqGraphqlPost token session
                  (page_request offset page_size page))
        = Ok (RespGraphql (Some (MkData (Some question_list)))) ->
        sent (snd (_get_problems_data_page offset page_size page w))
        = sent w ++ [ReqCsrfCookie session;
                     ReqGraphqlPost token session
                       (page_request offset page_size page)])
  /\ window_start (page_request offset page_size (page + 1))
     = window_stop (page_request offset page_size page)
  /\ (forall i j, i < j ->
        window_stop (page_request offset page_size i)
        <= window_start (page_request offset page_size j)).
Proof.
  intros Hsize. split; [reflexivity|]. split; [reflexivity|].
  split; [apply page_fetcher_traffic|].
  split.
  { intros w session token question_list Henv Hcookie Hpost.
    now rewrite (get_problems_data_page_answered _ _ _ _ _ _ _
                   Henv Hcookie Hpost). }
  unfold window_start, window_stop; cbn [page_request variables skip limit].
  split; [lia|]. intros i j Hij. nia.
Qed.

Lemma page_windows_tile_witness :
  skip (variables (page_request 0 300 1)) = 0 + 1 * 300
  /\ limit (variables (page_request 0 300 1)) = 300
  /\ sends_only (page_traffic 0 300 1) (_get_problems_data_page 0 300 1)
  /\ (forall w session token question_list,
        assoc "LEETCODE_SESSION_ID" (environ w) = Some session ->
        remote w (List.length (sent w)) (ReqCsrfCookie session)
        = Ok (RespCookie token) ->
        remote w (S (List.length (sent w)))
               (ReqGraphqlPost token session (page_request 0 300 1))
        = Ok (RespGraphql (Some (MkData (Some question_list)))) ->
        sent (snd (_get_problems_data_page 0 300 1 w))
        = sent w ++ [ReqCsrfCookie session;
                     ReqGraphqlPost token session (page_request 0 300 1)])
  /\ window_start (page_request 0 300 (1 + 1))
     = window_stop (page_request 0 300 1)
  /\ (forall i j, i < j ->
        window_stop (page_request 0 300 i)
        <= window_start (page_request 0 300 j)).
Proof. apply (page_windows_tile 0 300 1). lia. Defined.

(** ** Missing credential *)

Lemma get_problems_count_without_credential (w : World) :
  assoc "LEETCODE_SESSION_ID" (environ w) = None ->
  _get_problems_count w
  = (Raise (Exn KeyError "LEETCODE_SESSION_ID"), w).
Proof.
  intros Henv. unfold _get_problems_count, retry.
  change (range (3 - 1)) with [0; 1]. cbn [wrapper_loop].
  unfold try_except, get_problems_count_body, _get_leetcode_api_client.
  unfold bind at 1. unfold bind at 1. unfold os_environ at 1.
  now rewrite Henv.
Qed.

(** C9. When the session credential is not in the environment the run
    fails with an error and nothing has reached the transport: the
    requests sent are those sent before the run. *)
Theorem missing_credential_fails_before_network
    (json_loads : string -> outcome pyjson)
    (set_iter : list string -> list string)
    (args : Namespace) (w : World) :
  assoc "LEETCODE_SESSION_ID" (environ w) = None ->
  exists e w',
    main json_loads set_iter args w = (Raise e, w')
    /\ exc_type e = KeyError
    /\ sent w' = sent w.
Proof.
  intros Henv. exists (Exn KeyError "LEETCODE_SESSION_ID"), w.
  split; [|split; reflexivity].
  unfold main, _get_problems_data, get_problems_data.
  unfold bind at 1. unfold bind at 1.
  now rewrite (get_problems_count_without_credential w Henv).
Qed.

Lemma missing_credential_fails_before_network_witness :
  exists e w',
    main (decode_table []) insertion_order
         (MkNamespace 300 "problems.csv") offline
    = (Raise e, w')
    /\ exc_type e = KeyError
    /\ sent w' = sent offline.
Proof.
  apply (missing_credential_fails_before_network (decode_table [])
           insertion_order (MkNamespace 300 "problems.csv") offline).
  reflexivity.
Defined.

(** ** Flattening the company statistics *)

Lemma str_items_all_str (xs : list pyjson) :
  forallb is_str xs = true -> str_items xs = Ok (strs xs).
Proof.
  induction xs as [|x xs IH]; [reflexivity|].
  destruct x; simpl; try discriminate.
  intros H. now rewrite (IH H).
Qed.

Lemma str_items_not_all_str (xs : list pyjson) :
  forallb is_str xs = false -> exists e, str_items xs = Raise e.
Proof.
  induction xs as [|x xs IH]; [discriminate|].
  destruct x; simpl; try (intros _; eexists; reflexivity).
  intros H. destruct (IH H) as (e & He). exists e. now rewrite He.
Qed.

Lemma strs_app (xs ys : list pyjson) : strs (xs ++ ys) = strs xs ++ strs ys.
Proof. unfold strs. apply flat_map_app. Qed.

(** The value read from an entry is a string exactly when the entry is a
    tag object with a slug. *)
Lemma subscript_slug_is_str (d x : pyjson) :
  subscript_slug d = Ok x -> is_str x = slugged d.
Proof.
  destruct d; simpl; try discriminate.
  destruct (assoc "slug" items) as [y|]; [|discriminate].
  intros [= ->]. now destruct x.
Qed.

Lemma subscript_slug_strs (d x : pyjson) :
  subscript_slug d = Ok x -> strs [x] = slug_of d.
Proof.
  destruct d; simpl; try discriminate.
  destruct (assoc "slug" items) as [y|]; [|discriminate].
  intros [= ->]. now destruct x.
Qed.

Lemma slugs_of_entries_ok (ds xs : list pyjson) :
  slugs_of_entries ds = Ok xs ->
  forallb is_str xs = forallb slugged ds
  /\ strs xs = flat_map slug_of ds.
Proof.
  revert xs. induction ds as [|d ds IH]; intros xs.
  - intros [= <-]. now split.
  - simpl. destruct (subscript_slug d) as [x|e] eqn:Hd; [|discriminate].
    simpl. destruct (hashable x); [|discriminate].
    destruct (slugs_of_entries ds) as [ys|e]; [|discriminate].
    simpl. intros [= <-]. destruct (IH ys eq_refl) as [Hall Hstrs].
    split.
    + simpl. now rewrite Hall, (subscript_slug_is_str d x Hd).
    + change (x :: ys) with ([x] ++ ys).
      now rewrite strs_app, Hstrs, (subscript_slug_strs d x Hd).
Qed.

Lemma slugs_of_entries_slugged (ds : list pyjson) :
  forallb slugged ds = true -> exists xs, slugs_of_entries ds = Ok xs.
Proof.
  induction ds as [|d ds IH]; [now exists []|].
  simpl. intros H. apply andb_prop in H as [Hd Hds].
  destruct (IH Hds) as (xs & Hxs). rewrite Hxs.
  destruct d; try discriminate. simpl in *.
  destruct (assoc "slug" items) as [[]|]; try discriminate.
  simpl. eexists; reflexivity.
Qed.

(** Iterating a value and reading the slugs goes through only for a
    tolerated value. *)
Lemma entries_of_iterated (v : pyjson) (ds xs : list pyjson) :
  py_iter v = Ok ds -> slugs_of_entries ds = Ok xs ->
  forallb slugged ds = tolerated_value v
  /\ flat_map slug_of ds = flat_map slug_of (entries_of v).
Proof.
  destruct v; simpl; try discriminate.
  - destruct s as [|c s]; simpl.
    + intros [= <-] _. now split.
    + intros [= <-]. discriminate.
  - intros [= <-] _. now split.
  - destruct items as [|kv items]; simpl.
    + intros [= <-] _. now split.
    + intros [= <-]. discriminate.
Qed.

Lemma chain_slugs_ok (vs xs : list pyjson) :
  chain_slugs vs = Ok xs ->
  forallb is_str xs = forallb tolerated_value vs
  /\ strs xs = flat_map (fun v => flat_map slug_of (entries_of v)) vs.
Proof.
  revert xs. induction vs as [|v vs IH]; intros xs.
  - intros [= <-]. now split.
  - simpl. destruct (py_iter v) as [ds|e] eqn:Hv; [|discriminate].
    simpl. destruct (slugs_of_entries ds) as [ys|e] eqn:Hds; [|discriminate].
    simpl. destruct (chain_slugs vs) as [zs|e]; [|discriminate].
    simpl. intros [= <-].
    destruct (IH zs eq_refl) as [Hall Hstrs].
    destruct (slugs_of_entries_ok ds ys Hds) as [Hall1 Hstrs1].
    destruct (entries_of_iterated v ds ys Hv Hds) as [Htol Hent].
    split.
    + now rewrite forallb_app, Hall, Hall1, Htol.
    + now rewrite strs_app, Hstrs, Hstrs1, Hent.
Qed.

Lemma chain_slugs_tolerated (vs : list pyjson) :
  forallb tolerated_value vs = true -> exists xs, chain_slugs vs = Ok xs.
Proof.
  induction vs as [|v vs IH]; [now exists []|].
  simpl. intros H. apply andb_prop in H as [Hv Hvs].
  destruct (IH Hvs) as (zs & Hzs). rewrite Hzs.
  destruct v; try discriminate; simpl in *.
  - destruct s; [|discriminate]. simpl. eexists; reflexivity.
  - destruct (slugs_of_entries_slugged elements Hv) as (ys & Hys).
    rewrite Hys. simpl. eexists; reflexivity.
  - destruct items; [|discriminate]. simpl. eexists; reflexivity.
Qed.

Lemma forallb_map_snd {K V} (f : V -> bool) (items : list (K * V)) :
  forallb (fun kv => f (snd kv)) items = forallb f (map snd items).
Proof. induction items as [|kv items IH]; simpl; now rewrite ?IH. Qed.

(** The flattening of a decoded document succeeds exactly on the
    tolerated shapes, and then yields all slugs in document order. *)
Lemma flatten_tolerated (stats : pyjson) :
  tolerated_shape stats = true ->
  obind (dict_values stats) (fun values =>
    obind (chain_slugs values) str_items) = Ok (all_slugs stats).
Proof.
  destruct stats; simpl; try discriminate.
  rewrite forallb_map_snd. intros H.
  destruct (chain_slugs_tolerated _ H) as (xs & Hxs). rewrite Hxs. simpl.
  destruct (chain_slugs_ok _ _ Hxs) as [Hall Hstrs].
  rewrite str_items_all_str by now rewrite Hall.
  now rewrite Hstrs.
Qed.

Lemma flatten_not_tolerated (stats : pyjson) :
  tolerated_shape stats = false ->
  exists e,
    obind (dict_values stats) (fun values =>
      obind (chain_slugs values) str_items) = Raise e.
Proof.
  destruct stats; simpl; try (intros _; eexists; reflexivity).
  rewrite forallb_map_snd. intros H.
  destruct (chain_slugs (map snd items)) as [xs|e] eqn:Hxs; simpl.
  - destruct (chain_slugs_ok _ _ Hxs) as [Hall _].
    apply str_items_not_all_str. now rewrite Hall.
  - now exists e.
Qed.

Lemma expected_is_tolerated (stats : pyjson) :
  expected_shape stats = true -> tolerated_shape stats = true.
Proof.
  destruct stats; simpl; try discriminate.
  induction items as [|kv items IH]; simpl; [reflexivity|].
  intros H. apply andb_prop in H as [Hv Hrest].
  rewrite (IH Hrest), Bool.andb_true_r.
  destruct (snd kv); simpl in *; try discriminate. exact Hv.
Qed.

(** ** Rows *)

Lemma tag_slugs_present (tags : list TopicTag) :
  Forall (fun t => tag_slug t <> None) tags ->
  tag_slugs tags
  = Ok (flat_map (fun t => match tag_slug t with
                           | Some s => [s]
                           | None => []
                           end) tags).
Proof.
  induction 1 as [|t tags Ht _ IH]; [reflexivity|].
  simpl. destruct (tag_slug t); [|contradiction].
  now rewrite IH.
Qed.

Lemma in_slug_of (d : pyjson) (s : string) :
  In s (slug_of d) <-> slug_of d = [s].
Proof.
  unfold slug_of. destruct d; simpl; try tauto; try (split; [tauto|discriminate]).
  destruct (assoc "slug" items) as [[]|]; simpl;
    try (split; [tauto|discriminate]).
  split; [intros [->|[]]; reflexivity | intros [= ->]; now left].
Qed.

Lemma in_all_slugs (items : list (string * pyjson)) (s : string) :
  In s (all_slugs (JDict items))
  <-> exists company entries d,
        In (company, JList entries) items
        /\ In d entries /\ slug_of d = [s].
Proof.
  unfold all_slugs. rewrite in_flat_map. split.
  - intros (v & Hv & Hs). apply in_map_iff in Hv as ([company v'] & <- & Hin).
    apply in_flat_map in Hs as (d & Hd & Hs). simpl in Hd.
    destruct v'; simpl in Hd; try contradiction.
    exists company, elements, d. repeat split; try assumption.
    now apply in_slug_of.
  - intros (company & entries & d & Hin & Hd & Hs).
    exists (JList entries). split.
    + apply in_map_iff. now exists (company, JList entries).
    + apply in_flat_map. exists d. split; [exact Hd|]. now apply in_slug_of.
Qed.

Section RowFacts.
Variable json_loads : string -> outcome pyjson.
Variable set_iter : list string -> list string.

Lemma company_slugs_tolerated
    (p : GraphqlQuestionDetail) (text : string) (stats : pyjson) :
  company_tag_stats p = Some text ->
  json_loads text = Ok stats ->
  tolerated_shape stats = true ->
  company_slugs json_loads p = Ok (all_slugs stats).
Proof.
  intros Htext Hstats Hshape. unfold company_slugs.
  rewrite Htext, Hstats. simpl obind at 1. now apply flatten_tolerated.
Qed.



Lemma problem_row_well_formed (p : GraphqlQuestionDetail) :
  set_semantics set_iter ->
  well_formed json_loads p ->
  exists row,
    problem_row json_loads set_iter p = Ok row
    /\ is_row_of json_loads p row.
Proof.
  intros Hset [(tags & Htags & Hslugs)
               (text & stats & Htext & Hstats & Hshape)].
  unfold problem_row, companies_field, topics_field.
  rewrite Htags, (tag_slugs_present tags Hslugs).
  rewrite (company_slugs_tolerated p text stats Htext Hstats
             (expected_is_tolerated stats Hshape)).
  simpl. eexists. split; [reflexivity|].
  exists (set_iter (all_slugs stats)).
  unfold topic_slugs. rewrite Htags.
  split; [reflexivity|]. destruct (Hset (all_slugs stats)) as [Hnd Hin].
  split; [exact Hnd|]. intros s. rewrite Hin.
  destruct stats; try discriminate.
  rewrite in_all_slugs. unfold company_slug_of. split.
  - intros (company & entries & d & H1 & H2 & H3).
    now exists text, items, company, entries, d.
  - intros (text' & items' & company & entries & d & H0 & H1 & H2 & H3 & H4).
    rewrite Htext in H0. injection H0 as <-.
    rewrite Hstats in H1. injection H1 as <-.
    now exists company, entries, d.
Qed.
End RowFacts.

(** ** What a run leaves alone *)

Lemma keeps_files_bind {A B} (c : M A) (k : A -> M B) :
  keeps_files c -> (forall a, keeps_files (k a)) -> keeps_files (bind c k).
Proof.
  intros Hc Hk w. unfold bind. specialize (Hc w).
  destruct (c w) as [[a|e] w1]; cbn [snd] in *.
  - now rewrite Hk.
  - exact Hc.
Qed.

Lemma keeps_files_try_except {A} (body : M A) (classes : list exn_class)
    (handler : exn -> M A) :
  keeps_files body -> (forall e, keeps_files (handler e)) ->
  keeps_files (try_except body classes handler).
Proof.
  intros Hb Hh w. unfold try_except. specialize (Hb w).
  destruct (body w) as [[a|e] w1]; cbn [snd] in *; [exact Hb|].
  destruct (isinstance e classes); [now rewrite Hh | exact Hb].
Qed.

Lemma keeps_files_ret {A} (a : A) : keeps_files (ret a).
Proof. now intros w. Qed.

Lemma keeps_files_raise {A} (e : exn) : keeps_files (@raise A e).
Proof. now intros w. Qed.

Lemma keeps_files_lift {A} (o : outcome A) : keeps_files (lift o).
Proof. now intros w. Qed.

Lemma keeps_files_logging (r : log_record) : keeps_files (logging r).
Proof. now intros w. Qed.

Lemma keeps_files_sleep (s : Z) : keeps_files (time_sleep s).
Proof. intros w. unfold time_sleep. now destruct (s <? 0). Qed.

Lemma keeps_files_transport (r : request) : keeps_files (transport r).
Proof. now intros w. Qed.

Lemma keeps_files_getattr {A B} (obj : option A) (attr : string)
    (f : A -> B) : keeps_files (getattr obj attr f).
Proof. intros w. now destruct obj. Qed.

Lemma keeps_files_wrapper_loop {A} (times delay : Z)
    (exceptions : list exn_class) (func : M A) (attempts : list Z) :
  keeps_files func ->
  keeps_files (wrapper_loop times exceptions delay func attempts).
Proof.
  intros Hf. induction attempts as [|attempt rest IH]; cbn [wrapper_loop].
  - apply keeps_files_bind; [apply keeps_files_logging | intros _; exact Hf].
  - apply keeps_files_try_except; [exact Hf|]. intros _.
    apply keeps_files_bind; [apply keeps_files_logging | intros _].
    apply keeps_files_bind; [apply keeps_files_sleep | intros _].
    exact IH.
Qed.

Lemma keeps_files_client : keeps_files _get_leetcode_api_client.
Proof.
  unfold _get_leetcode_api_client. apply keeps_files_bind.
  - intros w. unfold os_environ. now destruct (assoc _ _).
  - intros session. apply keeps_files_bind.
    + unfold get_csrf_cookie. apply keeps_files_bind.
      * apply keeps_files_transport.
      * intros [token|data];
          [apply keeps_files_ret | apply keeps_files_raise].
    + intros token. apply keeps_files_ret.
Qed.

Lemma keeps_files_graphql_post (api : DefaultApi) (body : GraphqlQuery) :
  keeps_files (graphql_post api body).
Proof.
  unfold graphql_post. apply keeps_files_bind.
  - apply keeps_files_transport.
  - intros [token|[data|]];
      [apply keeps_files_raise | apply keeps_files_ret
       | apply keeps_files_raise].
Qed.

Lemma keeps_files_count : keeps_files _get_problems_count.
Proof.
  unfold _get_problems_count, retry. apply keeps_files_wrapper_loop.
  unfold get_problems_count_body.
  apply keeps_files_bind; [apply keeps_files_client | intros api].
  apply keeps_files_bind; [apply keeps_files_sleep | intros _].
  apply keeps_files_bind; [apply keeps_files_graphql_post | intros data].
  apply keeps_files_bind; [apply keeps_files_getattr | intros total].
  apply keeps_files_ret.
Qed.

Lemma keeps_files_page (offset page_size page : Z) :
  keeps_files (_get_problems_data_page offset page_size page).
Proof.
  unfold _get_problems_data_page, retry. apply keeps_files_wrapper_loop.
  unfold get_problems_data_page_body.
  apply keeps_files_bind; [apply keeps_files_client | intros api].
  apply keeps_files_bind; [apply keeps_files_sleep | intros _].
  apply keeps_files_bind; [apply keeps_files_graphql_post | intros data].
  apply keeps_files_getattr.
Qed.

Lemma keeps_files_fetch_pages
    (page_fetcher : Z -> Z -> Z -> M (option (list GraphqlQuestionDetail)))
    (start page_size : Z) :
  (forall o s p, keeps_files (page_fetcher o s p)) ->
  forall pages problems,
    keeps_files (fetch_pages page_fetcher start page_size pages problems).
Proof.
  intros Hp. induction pages as [|page rest IH]; intros problems;
    cbn [fetch_pages].
  - apply keeps_files_ret.
  - apply keeps_files_bind; [apply Hp|].
    intros [items|]; [apply IH | apply keeps_files_raise].
Qed.

Lemma keeps_files_fetch (page_size : Z) :
  keeps_files (_get_problems_data page_size).
Proof.
  unfold _get_problems_data, get_problems_data.
  apply keeps_files_bind; [apply keeps_files_count | intros total].
  cbv zeta.
  apply keeps_files_bind; [apply keeps_files_logging | intros _].
  apply keeps_files_bind; [apply keeps_files_lift | intros pages].
  apply keeps_files_bind; [apply keeps_files_lift | intros bar].
  apply keeps_files_bind;
    [apply keeps_files_fetch_pages, keeps_files_page | intros problems].
  apply keeps_files_bind; [apply keeps_files_lift | intros _].
  apply keeps_files_ret.
Qed.

(** ** The output file *)

Lemma string_app_assoc (a b c : string) :
  ((a ++ b) ++ c = a ++ (b ++ c))%string.
Proof. induction a as [|x a IH]; simpl; now rewrite ?IH. Qed.

Lemma string_app_nil_r (a : string) : (a ++ EmptyString = a)%string.
Proof. induction a as [|x a IH]; simpl; now rewrite ?IH. Qed.

Lemma assoc_store {V} (key : string) (v : V) (l : list (string * V)) :
  assoc key (store key v l) = Some v.
Proof.
  induction l as [|[k x] l IH]; simpl.
  - now rewrite String.eqb_refl.
  - destruct (String.eqb k key) eqn:Hk; simpl; rewrite Hk; [reflexivity|].
    exact IH.
Qed.

Lemma file_content_set_file (file content : string) (w : World) :
  file_content file (set_file file content w) = content.
Proof. unfold file_content, set_file; simpl. now rewrite assoc_store. Qed.

Section FileFacts.
Variable json_loads : string -> outcome pyjson.
Variable set_iter : list string -> list string.
Variable file : string.

Let row_of (p : GraphqlQuestionDetail) (row : list string) : Prop :=
  problem_row json_loads set_iter p = Ok row.

(** One record written through a text layer that leaves text alone. *)
Lemma writerow_as_is (fields : list string) (w : World) :
  writes_text_as_is (files w) ->
  writerow file fields w
  = (Ok tt,
     set_file file (file_content file w ++ Csv.format_row fields)%string w).
Proof.
  intros Htext. unfold writerow, file_write. now rewrite Htext.
Qed.

(** Rows that can all be computed are all written, in order. *)
Lemma write_rows_all :
  forall (items : list GraphqlQuestionDetail) (rows : list (list string))
         (w : World),
    writes_text_as_is (files w) ->
    Forall2 row_of items rows ->
    exists w',
      write_rows json_loads set_iter file items w = (Ok tt, w')
      /\ file_content file w'
         = (file_content file w ++ csv_lines rows)%string.
Proof.
  intros items rows w Htext H. revert w Htext.
  induction H as [|p row items rows Hrow _ IH]; intros w Htext.
  - exists w. split; [reflexivity|]. simpl. now rewrite string_app_nil_r.
  - destruct (IH (set_file file
                    (file_content file w ++ Csv.format_row row)%string w)
                 Htext)
      as (w' & Hrun & Hfile).
    exists w'. split.
    + simpl write_rows. unfold bind at 1. unfold lift at 1.
      unfold row_of in Hrow. rewrite Hrow.
      unfold bind at 1. rewrite (writerow_as_is row w Htext).
      exact Hrun.
    + rewrite Hfile, file_content_set_file. simpl csv_lines.
      now rewrite string_app_assoc.
Qed.

(** The first row that cannot be computed ends the loop: the error
    leaves the loop, and the rows before it stay written. *)
Lemma write_rows_until_failure
    (before after : list GraphqlQuestionDetail)
    (failing : GraphqlQuestionDetail) (rows : list (list string))
    (e : exn) (w : World) :
  writes_text_as_is (files w) ->
  Forall2 row_of before rows ->
  problem_row json_loads set_iter failing = Raise e ->
  exists w',
    write_rows json_loads set_iter file (before ++ failing :: after) w
    = (Raise e, w')
    /\ file_content file w'
       = (file_content file w ++ csv_lines rows)%string.
Proof.
  intros Htext H Hfail. revert w Htext.
  induction H as [|p row items rows Hrow _ IH]; intros w Htext.
  - exists w. split.
    + simpl. unfold bind at 1. unfold lift at 1. now rewrite Hfail.
    + simpl. now rewrite string_app_nil_r.
  - destruct (IH (set_file file
                    (file_content file w ++ Csv.format_row row)%string w)
                 Htext)
      as (w' & Hrun & Hfile).
    exists w'. split.
    + simpl app. simpl write_rows. unfold bind at 1. unfold lift at 1.
      unfold row_of in Hrow. rewrite Hrow.
      unfold bind at 1. rewrite (writerow_as_is row w Htext).
      exact Hrun.
    + rewrite Hfile, file_content_set_file. simpl csv_lines.
      now rewrite string_app_assoc.
Qed.

(** When the path opens, the file starts empty and gets the header
    first. *)
Lemma export_starts_with_header
    (path : string) (items : list GraphqlQuestionDetail) (w : World) :
  open_target (files w) path = Ok file ->
  writes_text_as_is (files w) ->
  exists w0,
    export json_loads set_iter path items w
    = write_rows json_loads set_iter file items w0
    /\ file_content file w0 = Csv.format_row csv_header
    /\ writes_text_as_is (files w0).
Proof.
  intros Hopen Htext.
  exists (set_file file (Csv.format_row csv_header)
            (set_file file EmptyString w)).
  split; [|split].
  - unfold export. unfold bind at 1. unfold open_w at 1. rewrite Hopen.
    unfold bind at 1.
    rewrite (writerow_as_is csv_header (set_file file EmptyString w) Htext).
    now rewrite file_content_set_file.
  - now rewrite file_content_set_file.
  - exact Htext.
Qed.
End FileFacts.

(** When the path does not open, nothing is written. *)
Lemma export_fails_at_open
    (json_loads : string -> outcome pyjson)
    (set_iter : list string -> list string)
    (path : string) (items : list GraphqlQuestionDetail) (w : World)
    (e : exn) :
  open_target (files w) path = Raise e ->
  export json_loads set_iter path items w = (Raise e, w).
Proof.
  intros Hopen. unfold export, bind, open_w. now rewrite Hopen.
Qed.

(** *** The script's records against the specification's lines *)

Lemma special_is_listed (c : ascii) :
  Csv.special c
  = existsb (Ascii.eqb c)
            [";"%char; ascii_of_nat 34; ascii_of_nat 13; ascii_of_nat 10].
Proof.
  unfold Csv.special, Csv.delimiter, Csv.quotechar, Csv.CR, Csv.LF.
  cbn [existsb]. now rewrite orb_false_r, !orb_assoc.
Qed.

Lemma needs_quotes_must_be_quoted (s : string) :
  Csv.needs_quotes s = must_be_quoted s.
Proof.
  unfold must_be_quoted. induction s as [|c s IH]; [reflexivity|].
  cbn [Csv.needs_quotes list_ascii_of_string].
  rewrite IH, special_is_listed. reflexivity.
Qed.

Lemma double_quotes_with_doubled_quotes (s : string) :
  Csv.double_quotes s = with_doubled_quotes s.
Proof.
  unfold with_doubled_quotes. induction s as [|c s IH]; [reflexivity|].
  simpl. rewrite IH. unfold Csv.quotechar.
  now destruct (Ascii.eqb c (ascii_of_nat 34)).
Qed.

Lemma format_field_delimited (s : string) :
  Csv.format_field s = delimited_field s.
Proof.
  unfold Csv.format_field, delimited_field, Csv.quoted.
  rewrite needs_quotes_must_be_quoted, double_quotes_with_doubled_quotes.
  reflexivity.
Qed.

Lemma concat_joined_by (sep : string) (parts : list string) :
  String.concat sep parts = joined_by sep parts.
Proof.
  induction parts as [|part rest IH]; [reflexivity|].
  simpl. destruct rest; [reflexivity|]. now rewrite IH.
Qed.

(** A record of two fields or more is a line of the specification. *)
Lemma format_row_delimited (fields : list string) :
  (2 <= List.length fields)%nat ->
  Csv.format_row fields = delimited_line fields.
Proof.
  intros Hlen. unfold delimited_line.
  rewrite <- concat_joined_by, <- (map_ext _ _ format_field_delimited).
  destruct fields as [|a [|b rest]]; simpl in Hlen; try lia.
  unfold Csv.format_row. now destruct a.
Qed.

Lemma csv_lines_delimited (rows : list (list string)) :
  Forall (fun row => List.length row = 8%nat) rows ->
  csv_lines rows = delimited_text rows.
Proof.
  induction 1 as [|row rows Hrow _ IH]; [reflexivity|].
  simpl. rewrite IH, format_row_delimited by lia. reflexivity.
Qed.

Lemma header_is_header_line : Csv.format_row csv_header = header_line.
Proof. reflexivity. Qed.

Lemma insertion_order_is_set : set_semantics insertion_order.
Proof.
  intros l. unfold insertion_order. split.
  - apply NoDup_rev, NoDup_nodup.
  - intros s. now rewrite <- in_rev, nodup_In, <- in_rev.
Qed.

Lemma problem_row_length
    (json_loads : string -> outcome pyjson)
    (set_iter : list string -> list string)
    (p : GraphqlQuestionDetail) (row : list string) :
  problem_row json_loads set_iter p = Ok row -> List.length row = 8%nat.
Proof.
  unfold problem_row.
  destruct (topics_field p); [|discriminate]. simpl.
  destruct (companies_field json_loads set_iter p); [|discriminate].
  simpl. now intros [= <-].
Qed.

Lemma computed_rows_have_eight_fields
    (json_loads : string -> outcome pyjson)
    (set_iter : list string -> list string)
    (items : list GraphqlQuestionDetail) (rows : list (list string)) :
  Forall2 (fun p row => problem_row json_loads set_iter p = Ok row)
          items rows ->
  Forall (fun row => List.length row = 8%nat) rows.
Proof.
  induction 1 as [|p row items rows Hrow _ IH]; constructor;
    [now apply (problem_row_length json_loads set_iter p) | exact IH].
Qed.

Lemma rows_of_well_formed
    (json_loads : string -> outcome pyjson)
    (set_iter : list string -> list string)
    (items : list GraphqlQuestionDetail) :
  set_semantics set_iter ->
  Forall (well_formed json_loads) items ->
  exists rows,
    Forall2 (fun p row => problem_row json_loads set_iter p = Ok row)
            items rows
    /\ Forall2 (is_row_of json_loads) items rows
    /\ Forall (fun row => List.length row = 8%nat) rows.
Proof.
  intros Hset. induction 1 as [|p items Hp _ (rows & Hrows & Hspec & Hlen)].
  - exists []. repeat split; constructor.
  - destruct (problem_row_well_formed json_loads set_iter p Hset Hp)
      as (row & Hrow & His).
    exists (row :: rows). repeat split; constructor; try assumption.
    now apply (problem_row_length json_loads set_iter p).
Qed.

(** C8, as stated, fails.  The first line of the file has nothing but a
    semicolon between the column names, so it is not the header the claim
    quotes, with a space after every semicolon.  Nor is a file written for
    every list of items: with an empty output path the export ends at
    [open] with an error and the disk stays as it was; with an item whose
    company statistics are [None] it ends after the header; and where the
    text layer encodes ASCII only, an item with an accented title ends it
    after the header as well. *)
Lemma written_header_has_no_spaces :
  (let run :=
     main (decode_table sample_documents) insertion_order
          (MkNamespace 300 "problems.csv")
          (online (catalogue_replies [two_sum])) in
   fst run = Ok tt
   /\ file_content "problems.csv" (snd run)
      = (header_line
         ++ "1;Two Sum;two-sum;Algorithms;0.0;False;array,hash-table;x,y"
         ++ CRLF)%string
   /\ ~ exists rest,
          file_content "problems.csv" (snd run)
          = (spaced_header_line ++ rest)%string)
  /\ (let run :=
        main (decode_table sample_documents) insertion_order
             (MkNamespace 300 EmptyString)
             (online (catalogue_replies [two_sum])) in
      (exists e, fst run = Raise e /\ exc_type e = FileNotFoundError)
      /\ disk (files (snd run)) = [])
  /\ (let run :=
        main (decode_table sample_documents) insertion_order
             (MkNamespace 300 "problems.csv")
             (online (catalogue_replies [broken_problem])) in
      (exists e, fst run = Raise e /\ exc_type e = TypeError)
      /\ file_content "problems.csv" (snd run) = header_line)
  /\ (let run :=
        main (decode_table sample_documents) insertion_order
             (MkNamespace 300 "problems.csv")
             (on_disk ascii_disk
                (online (catalogue_replies [accented_problem]))) in
      (exists e, fst run = Raise e /\ exc_type e = UnicodeEncodeError)
      /\ file_content "problems.csv" (snd run) = header_line).
Proof.
  split; [split; [|split]|split; [split|split; split]].
  - vm_compute. reflexivity.
  - vm_compute. reflexivity.
  - intros (rest & H). vm_compute in H. discriminate H.
  - eexists. split; vm_compute; reflexivity.
  - vm_compute. reflexivity.
  - eexists. split; vm_compute; reflexivity.
  - vm_compute. reflexivity.
  - eexists. split; vm_compute; reflexivity.
  - vm_compute. reflexivity.
Qed.

(** C8, amended.  For every list of fetched items (item records as the
    data model has them), when the output path can be opened for writing
    and the text layer writes text as it is, the export writes the header
    line, which is the eight column names with nothing but a semicolon
    between them, followed by one line per item in the order of the list.
    A line is the eight fields of its item joined by semicolons and ended
    by CR LF, a field that holds a semicolon, a double quote or a line
    break being put in double quotes; the topics field is the item's topic
    slugs joined by commas in their order, and the companies field is the
    comma-joined set, without repetition, of the tag slugs of all
    companies of the item. *)
Theorem export_writes_header_and_rows
    (json_loads : string -> outcome pyjson)
    (set_iter : list string -> list string)
    (args : Namespace) (items : list GraphqlQuestionDetail)
    (file : string) (w w1 : World) :
  set_semantics set_iter ->
  _get_problems_data (batch_size args) w = (Ok items, w1) ->
  Forall (well_formed json_loads) items ->
  open_target (files w) (output args) = Ok file ->
  writes_text_as_is (files w) ->
  exists rows w',
    main json_loads set_iter args w = (Ok tt, w')
    /\ Forall2 (is_row_of json_loads) items rows
    /\ file_content file w'
       = (header_line ++ delimited_text rows)%string.
Proof.
  intros Hset Hfetch Hwf Hopen Htext.
  pose proof (keeps_files_fetch (batch_size args) w) as Hfiles.
  rewrite Hfetch in Hfiles. cbn [snd] in Hfiles.
  rewrite <- Hfiles in Hopen, Htext.
  destruct (rows_of_well_formed json_loads set_iter items Hset Hwf)
    as (rows & Hrows & Hspec & Hlen).
  destruct (export_starts_with_header json_loads set_iter file
              (output args) items w1 Hopen Htext)
    as (w0 & Hexport & Hheader & Htext0).
  destruct (write_rows_all json_loads set_iter file items rows w0
              Htext0 Hrows) as (w' & Hrun & Hfile).
  exists rows, w'. split; [|split; [exact Hspec|]].
  - unfold main. unfold bind at 1. rewrite Hfetch, Hexport. exact Hrun.
  - now rewrite Hfile, Hheader, header_is_header_line,
      (csv_lines_delimited rows Hlen).
Qed.

Lemma export_writes_header_and_rows_witness :
  exists rows w',
    main (decode_table sample_documents) insertion_order
         (MkNamespace 300 "problems.csv")
         (online (catalogue_replies [two_sum; add_two_numbers]))
    = (Ok tt, w')
    /\ Forall2 (is_row_of (decode_table sample_documents))
               [two_sum; add_two_numbers] rows
    /\ file_content "problems.csv" w'
       = (header_line ++ delimited_text rows)%string.
Proof.
  apply (export_writes_header_and_rows (decode_table sample_documents)
           insertion_order (MkNamespace 300 "problems.csv")
           [two_sum; add_two_numbers] "problems.csv"
           (online (catalogue_replies [two_sum; add_two_numbers]))
           (snd (_get_problems_data 300
                   (online (catalogue_replies
                              [two_sum; add_two_numbers]))))).
  - exact insertion_order_is_set.
  - vm_compute. reflexivity.
  - apply Forall_cons; [|apply Forall_cons; [|apply Forall_nil]];
      (split;
       [ eexists; split; [reflexivity | repeat constructor; discriminate]
       | do 2 eexists; repeat split; reflexivity ]).
  - reflexivity.
  - intros text. reflexivity.
Defined.




Lemma driver_concatenates_pages_witness :
  exists n items w',
    is_ceiling n (1 + 1) 1
    /\ get_problems_data (count_double 1) (page_double one_per_call) 1
                         offline
       = (Ok items, w')
    /\ items = List.concat (map one_per_call (seq 0 (Z.to_nat n)))
    /\ calls_to "page" w'
       = map (fun page => MkCall "page" [0; 1; page]) (range n)
    /\ List.length items
       = list_sum (map (fun i => List.length (one_per_call i))
                       (seq 0 (Z.to_nat n))).
Proof.
  apply (driver_concatenates_pages 1 1 one_per_call offline).
  - lia.
  - vm_compute; discriminate.
  - split; [lia | vm_compute; discriminate].
  - reflexivity.
Defined.

(** ** Worked examples *)

(** The flattening example of the specification: two companies, three
    tags, two distinct slugs. *)
Example two_companies_flattened :
  companies_field (decode_table sample_documents) insertion_order two_sum
  = Ok "x,y".
Proof. vm_compute. reflexivity. Qed.

(** Null statistics and a tag object without a slug are both rejected. *)
Example null_and_slugless_are_rejected :
  rejected_stats (decode_table sample_documents) broken_problem
  /\ tolerated_shape (JDict [("CompanyA", JList [JDict [("name", JStr "a")]])])
     = false.
Proof. split; [now left | reflexivity]. Qed.

(** A catalogue of two problems fetched 300 at a time: one page, and a
    file of three lines. *)
Example end_to_end_two_problems :
  let run :=
    main (decode_table sample_documents) insertion_order
         (MkNamespace 300 "problems.csv")
         (online (catalogue_replies [two_sum; add_two_numbers])) in
  fst run = Ok tt
  /\ file_content "problems.csv" (snd run)
     = ("Question id;title;slug;category;frequency;is_paid;topics;companies"
        ++ Csv.lineterminator
        ++ "1;Two Sum;two-sum;Algorithms;0.0;False;array,hash-table;x,y"
        ++ Csv.lineterminator
        ++ "2;Add Two Numbers;add-two-numbers;Algorithms;0.0;False;linked-list;"
        ++ Csv.lineterminator)%string.
Proof. split; vm_compute; reflexivity. Qed.

(** * Further properties *)

(** ** Retry decorator: any script *)






Lemma firstn_seq_min (k s n : nat) :
  firstn k (seq s n) = seq s (Nat.min k n).
Proof.
  revert s n. induction k as [|k IH]; intros s [|n]; simpl; try reflexivity.
  now rewrite IH.
Qed.



(** ** The fetchers on the wire *)

(** One attempt of the page fetcher's body, by what the remote side does. *)
Lemma page_body_cookie_fails
    (offset page_size page : Z) (w : World) (session : string) (err : exn) :
  assoc "LEETCODE_SESSION_ID" (environ w) = Some session ->
  remote w (List.length (sent w)) (ReqCsrfCookie session) = Raise err ->
  get_problems_data_page_body offset page_size page w
  = (Raise err,
     MkWorld (environ w) (remote w) (sent w ++ [ReqCsrfCookie session])
             (slept w) (logged w) (files w) (calls w)).
Proof.
  intros Henv Hcookie.
  unfold get_problems_data_page_body, _get_leetcode_api_client.
  unfold bind at 1. unfold bind at 1. unfold os_environ at 1. rewrite Henv.
  unfold bind at 1. unfold get_csrf_cookie at 1. unfold bind at 1.
  unfold transport at 1. now rewrite Hcookie.
Qed.

Lemma page_body_post_fails
    (offset page_size page : Z) (w : World) (session token : string)
    (err : exn) :
  assoc "LEETCODE_SESSION_ID" (environ w) = Some session ->
  remote w (List.length (sent w)) (ReqCsrfCookie session)
  = Ok (RespCookie token) ->
  remote w (S (List.length (sent w)))
         (ReqGraphqlPost token session (page_request offset page_size page))
  = Raise err ->
  get_problems_data_page_body offset page_size page w
  = (Raise err,
     MkWorld (environ w) (remote w)
             (sent w ++ [ReqCsrfCookie session;
                         ReqGraphqlPost token session
                           (page_request offset page_size page)])
             (slept w ++ [2]) (logged w) (files w) (calls w)).
Proof.
  intros Henv Hcookie Hpost.
  unfold get_problems_data_page_body.
  unfold bind at 1. rewrite (client_answered w session token Henv Hcookie).
  rewrite <- bind_assoc_run. unfold bind at 1. rewrite paced_post.
  cbn [environ remote sent slept logged files calls
       x_csrftoken LEETCODE_SESSION].
  rewrite length_app, Nat.add_1_r, Hpost.
  now rewrite <- app_assoc.
Qed.

Lemma page_body_answered
    (offset page_size page : Z) (w : World) (session token : string)
    (question_list : QuestionList) :
  assoc "LEETCODE_SESSION_ID" (environ w) = Some session ->
  remote w (List.length (sent w)) (ReqCsrfCookie session)
  = Ok (RespCookie token) ->
  remote w (S (List.length (sent w)))
         (ReqGraphqlPost token session (page_request offset page_size page))
  = Ok (RespGraphql (Some (MkData (Some question_list)))) ->
  get_problems_data_page_body offset page_size page w
  = (Ok (questions question_list),
     MkWorld (environ w) (remote w)
             (sent w ++ [ReqCsrfCookie session;
                         ReqGraphqlPost token session
                           (page_request offset page_size page)])
             (slept w ++ [2]) (logged w) (files w) (calls w)).
Proof.
  intros Henv Hcookie Hpost.
  unfold get_problems_data_page_body.
  unfold bind at 1. rewrite (client_answered w session token Henv Hcookie).
  rewrite <- bind_assoc_run. unfold bind at 1. rewrite paced_post.
  cbn [environ remote sent slept logged files calls
       x_csrftoken LEETCODE_SESSION].
  rewrite length_app, Nat.add_1_r, Hpost.
  unfold getattr, ret. cbn [problemset_question_list].
  now rewrite <- app_assoc.
Qed.

(** X3. On a machine that holds the credential, when every cookie lookup
    fails with a protocol error, the page fetcher gives up after three
    lookups: it sleeps 5 seconds twice, never takes the 2-second pacing
    pause, never posts the query, logs the two caught failures and the last
    try, and hands the error to its caller. *)
Theorem page_fetcher_gives_up_when_cookie_lookup_is_down
    (offset page_size page : Z) (w : World) (session : string) (err : exn) :
  assoc "LEETCODE_SESSION_ID" (environ w) = Some session ->
  (forall n, remote w n (ReqCsrfCookie session) = Raise err) ->
  isinstance err [ProtocolError] = true ->
  _get_problems_data_page offset page_size page w
  = (Raise err,
     MkWorld (environ w) (remote w)
             (sent w ++ [ReqCsrfCookie session; ReqCsrfCookie session;
                         ReqCsrfCookie session])
             (slept w ++ [5; 5])
             (logged w ++ [attempt_record 3 0; attempt_record 3 1;
                           LogError "Last try"])
             (files w) (calls w)).
Proof.
  intros Henv Hdown Hcaught.
  unfold _get_problems_data_page, retry.
  change (range (3 - 1)) with [0; 1]. cbn [wrapper_loop].
  unfold try_except at 1.
  rewrite page_body_cookie_fails with (session := session) (err := err);
    [|exact Henv|apply Hdown].
  rewrite Hcaught. unfold bind at 1. unfold logging at 1.
  unfold bind at 1. unfold time_sleep at 1.
  change (5 <? 0) with false. cbv iota.
  cbn [environ remote sent slept logged files calls].
  unfold try_except at 1.
  rewrite page_body_cookie_fails with (session := session) (err := err);
    [|exact Henv|apply Hdown].
  rewrite Hcaught. unfold bind at 1. unfold logging at 1.
  unfold bind at 1. unfold time_sleep at 1.
  change (5 <? 0) with false. cbv iota.
  cbn [environ remote sent slept logged files calls].
  unfold bind at 1. unfold logging at 1.
  rewrite page_body_cookie_fails with (session := session) (err := err);
    [|exact Henv|apply Hdown].
  cbn [environ remote sent slept logged files calls].
  unfold attempt_record. now rewrite <- !app_assoc.
Qed.

Lemma page_fetcher_gives_up_when_cookie_lookup_is_down_witness :
  _get_problems_data_page 0 300 0 (online always_failing)
  = (Raise (Exn ProtocolError "Connection aborted."),
     MkWorld (environ (online always_failing))
             (remote (online always_failing))
             (sent (online always_failing)
              ++ [ReqCsrfCookie "secret"; ReqCsrfCookie "secret";
                  ReqCsrfCookie "secret"])
             (slept (online always_failing) ++ [5; 5])
             (logged (online always_failing)
              ++ [attempt_record 3 0; attempt_record 3 1;
                  LogError "Last try"])
             (files (online always_failing))
             (calls (online always_failing))).
Proof.
  apply (page_fetcher_gives_up_when_cookie_lookup_is_down 0 300 0
           (online always_failing) "secret"
           (Exn ProtocolError "Connection aborted."));
    reflexivity.
Defined.

(** X4. When the first post of the query fails with a protocol error and
    the second attempt is answered, the page fetcher returns the answer.
    The retried attempt starts from scratch: it looks the cookie up again,
    takes the 2-second pacing pause again and posts with the token it has
    just received; between the attempts it sleeps 5 seconds and logs one
    record. *)
Theorem page_fetcher_recovers_from_a_failed_post
    (offset page_size page : Z) (w : World)
    (session token token' : string) (err : exn)
    (question_list : QuestionList) :
  assoc "LEETCODE_SESSION_ID" (environ w) = Some session ->
  remote w (List.length (sent w)) (ReqCsrfCookie session)
  = Ok (RespCookie token) ->
  remote w (1 + List.length (sent w))
         (ReqGraphqlPost token session (page_request offset page_size page))
  = Raise err ->
  isinstance err [ProtocolError] = true ->
  remote w (2 + List.length (sent w)) (ReqCsrfCookie session)
  = Ok (RespCookie token') ->
  remote w (3 + List.length (sent w))
         (ReqGraphqlPost token' session (page_request offset page_size page))
  = Ok (RespGraphql (Some (MkData (Some question_list)))) ->
  _get_problems_data_page offset page_size page w
  = (Ok (questions question_list),
     MkWorld (environ w) (remote w)
             (sent w ++ [ReqCsrfCookie session;
                         ReqGraphqlPost token session
                           (page_request offset page_size page);
                         ReqCsrfCookie session;
                         ReqGraphqlPost token' session
                           (page_request offset page_size page)])
             (slept w ++ [2; 5; 2])
             (logged w ++ [attempt_record 3 0])
             (files w) (calls w)).
Proof.
  intros Henv Hc1 Hp1 Hcaught Hc2 Hp2.
  unfold _get_problems_data_page, retry.
  change (range (3 - 1)) with [0; 1]. cbn [wrapper_loop].
  unfold try_except at 1.
  rewrite (page_body_post_fails offset page_size page w session token err
             Henv Hc1 Hp1).
  rewrite Hcaught. unfold bind at 1. unfold logging at 1.
  unfold bind at 1. unfold time_sleep at 1.
  change (5 <? 0) with false. cbv iota.
  cbn [environ remote sent slept logged files calls].
  unfold try_except at 1.
  rewrite (page_body_answered offset page_size page _ session token'
             question_list).
  - cbn [environ remote sent slept logged files calls].
    unfold attempt_record. now rewrite <- !app_assoc.
  - exact Henv.
  - cbn [sent remote]. rewrite length_app. cbn [List.length].
    replace (List.length (sent w) + 2)%nat
      with (2 + List.length (sent w))%nat by lia.
    exact Hc2.
  - cbn [sent remote]. rewrite length_app. cbn [List.length].
    replace (S (List.length (sent w) + 2))
      with (3 + List.length (sent w))%nat by lia.
    exact Hp2.
Qed.

Lemma page_fetcher_recovers_from_a_failed_post_witness :
  _get_problems_data_page 0 300 0 (online (hiccup [two_sum]))
  = (Ok (Some [two_sum]),
     MkWorld (environ (online (hiccup [two_sum])))
             (remote (online (hiccup [two_sum])))
             (sent (online (hiccup [two_sum]))
              ++ [ReqCsrfCookie "secret";
                  ReqGraphqlPost "token" "secret" (page_request 0 300 0);
                  ReqCsrfCookie "secret";
                  ReqGraphqlPost "token" "secret" (page_request 0 300 0)])
             (slept (online (hiccup [two_sum])) ++ [2; 5; 2])
             (logged (online (hiccup [two_sum])) ++ [attempt_record 3 0])
             (files (online (hiccup [two_sum])))
             (calls (online (hiccup [two_sum])))).
Proof.
  apply (page_fetcher_recovers_from_a_failed_post 0 300 0
           (online (hiccup [two_sum])) "secret" "token" "token"
           (Exn ProtocolError "Connection aborted.")
           (MkQuestionList (Some 1) (Some [two_sum])));
    reflexivity.
Defined.

(** ** Pagination driver: failures and edge sizes *)

(** The loop stops at the first call of the page fetcher that does not
    hand back a list. *)
Lemma fetch_pages_stops_at_failure
    (behaviour : nat -> outcome (option (list GraphqlQuestionDetail)))
    (start page_size : Z) (e : exn) :
  forall (pages : list Z) (k : nat)
         (problems : list GraphqlQuestionDetail) (w : World),
    (k < List.length pages)%nat ->
    (forall i, (i < k)%nat ->
       page_failure (behaviour (call_count "page" w + i)%nat) = None) ->
    page_failure (behaviour (call_count "page" w + k)%nat) = Some e ->
    exists w',
      fetch_pages (scripted_page behaviour) start page_size pages problems w
      = (Raise e, w')
      /\ calls_to "page" w'
         = calls_to "page" w
           ++ map (fun page => MkCall "page" [start; page_size; page])
                  (firstn (S k) pages).
Proof.
  induction pages as [|page rest IH]; intros k problems w Hk Hgood Hbad.
  - simpl in Hk. lia.
  - simpl fetch_pages. unfold bind at 1.
    unfold scripted_page at 1, mock at 1.
    destruct k as [|k].
    + rewrite Nat.add_0_r in Hbad.
      destruct (behaviour (call_count "page" w)) as [[items|]|err];
        simpl in Hbad; try discriminate; injection Hbad as <-;
        (eexists; split; [reflexivity|]);
        now rewrite calls_to_record_call.
    + pose proof (Hgood 0%nat ltac:(lia)) as H0.
      rewrite Nat.add_0_r in H0.
      destruct (behaviour (call_count "page" w)) as [[items|]|err];
        simpl in H0; try discriminate.
      destruct (IH k (problems ++ items)
                  (record_call "page" [start; page_size; page] w))
        as (w' & Hrun & Hcalls).
      * simpl in Hk. lia.
      * intros i Hi. rewrite call_count_record_call.
        replace (S (call_count "page" w) + i)%nat
          with (call_count "page" w + S i)%nat by lia.
        apply Hgood. lia.
      * rewrite call_count_record_call.
        replace (S (call_count "page" w) + k)%nat
          with (call_count "page" w + S k)%nat by lia.
        exact Hbad.
      * exists w'. split; [exact Hrun|].
        rewrite Hcalls, calls_to_record_call, <- app_assoc. reflexivity.
Qed.

Lemma ceiling_is_unique (n m x y : Z) :
  0 < y -> is_ceiling n x y -> is_ceiling m x y -> n = m.
Proof. unfold is_ceiling. intros Hy Hn Hm. nia. Qed.

(** X5. For a total from 0 to 2^53 - 1 and a page size from 1 to 2^53,
    with [n] the ceiling of [(total + 1) / page_size]: when the page
    fetcher hands back lists for its first [k] calls, [k < n], and then
    fails (by an error of its own, or by handing back [None]), the driver
    stops there: the error reaches the caller instead of any list, and the
    page fetcher has been invoked exactly [k + 1] times, for the page
    indices 0 to [k]. *)
Theorem driver_stops_at_first_failing_page
    (behaviour : nat -> outcome (option (list GraphqlQuestionDetail)))
    (total page_size n : Z) (k : nat) (e : exn) (w : World) :
  calls_to "page" w = [] ->
  0 <= total -> total + 1 <= 2 ^ 53 -> 0 < page_size <= 2 ^ 53 ->
  is_ceiling n (total + 1) page_size ->
  Z.of_nat k < n ->
  (forall i, (i < k)%nat -> page_failure (behaviour i) = None) ->
  page_failure (behaviour k) = Some e ->
  exists w',
    get_problems_data (count_double total) (scripted_page behaviour)
                      page_size w
    = (Raise e, w')
    /\ calls_to "page" w'
       = map (fun page => MkCall "page" [0; page_size; page])
             (range (Z.of_nat k + 1)).
Proof.
  intros Hfresh Ht Htop Hp Hceil Hk Hgood Hbad.
  destruct (page_count_exact total page_size Ht Htop Hp)
    as (n' & Hn & Hceil').
  assert (n' = n)
    by (apply (ceiling_is_unique n' n (total + 1) page_size); tauto || lia).
  subst n'.
  pose proof (ceiling_fits n (total + 1) page_size Hceil
                ltac:(lia) Htop) as Hfits.
  set (w2 := snd (logging (LogInfo "Fetching %s problems %s per page"
                             [total - 0 + 1; page_size])
                    (record_call "count" [] w))).
  assert (Hw2 : calls_to "page" w2 = []).
  { unfold w2, logging. cbn [snd].
    change (calls_to "page" (record_call "count" [] w) = []).
    now rewrite calls_to_page_after_count. }
  assert (Hc2 : call_count "page" w2 = 0%nat)
    by (unfold call_count; now rewrite Hw2).
  destruct (fetch_pages_stops_at_failure behaviour 0 page_size e
              (range n) k [] w2) as (w' & Hrun & Hcalls).
  - rewrite length_range. lia.
  - intros i Hi. rewrite Hc2. now apply Hgood.
  - now rewrite Hc2.
  - exists w'. split.
    + unfold get_problems_data. unfold bind at 1.
      rewrite count_double_run. cbv zeta. unfold bind at 1.
      change (logging (LogInfo "Fetching %s problems %s per page"
                         [total - 0 + 1; page_size])
                (record_call "count" [] w)) with (Ok tt, w2).
      cbv iota. unfold bind at 1. unfold lift at 1. rewrite Hn.
      unfold bind at 1. unfold lift at 1. rewrite (tqdm_range_fits n Hfits).
      unfold bind at 1. now rewrite Hrun.
    + rewrite Hcalls, Hw2, app_nil_l. f_equal.
      unfold range. rewrite firstn_map, firstn_seq_min. f_equal. f_equal.
      lia.
Qed.

Lemma driver_stops_at_first_failing_page_witness :
  exists w',
    get_problems_data (count_double 2) (scripted_page second_page_down)
                      1 offline
    = (Raise (Exn ProtocolError "Connection aborted."), w')
    /\ calls_to "page" w'
       = map (fun page => MkCall "page" [0; 1; page])
             (range (Z.of_nat 1 + 1)).
Proof.
  apply (driver_stops_at_first_failing_page second_page_down 2 1 3 1
           (Exn ProtocolError "Connection aborted.") offline).
  - reflexivity.
  - lia.
  - vm_compute. discriminate.
  - split; [lia | vm_compute; discriminate].
  - unfold is_ceiling. lia.
  - simpl; lia.
  - intros i Hi. destruct i; [reflexivity | lia].
  - reflexivity.
Defined.

(** With a page size of 0 the driver fails once the count is known and
    the log line is written: whatever the page fetcher is, it is not
    invoked. *)
Lemma get_problems_data_zero_page_size
    (count_fetcher : M Z)
    (page_fetcher : Z -> Z -> Z -> M (option (list GraphqlQuestionDetail)))
    (total : Z) (w w1 : World) :
  count_fetcher w = (Ok total, w1) ->
  get_problems_data count_fetcher page_fetcher 0 w
  = (Raise (Exn ZeroDivisionError "division by zero"),
     MkWorld (environ w1) (remote w1) (sent w1) (slept w1)
             (logged w1 ++ [LogInfo "Fetching %s problems %s per page"
                                    [total - 0 + 1; 0]])
             (files w1) (calls w1)).
Proof.
  intros Hcount. unfold get_problems_data. unfold bind at 1.
  rewrite Hcount. reflexivity.
Qed.

(** X6. A run with a batch size of 0 fails with [ZeroDivisionError] after
    the count has been fetched: the cookie lookup and the count query are
    the only requests sent, no page is asked for, and no file is created or
    truncated. *)
Theorem zero_batch_size_fails_after_the_count
    (json_loads : string -> outcome pyjson)
    (set_iter : list string -> list string)
    (args : Namespace) (w : World) (session token : string)
    (question_list : QuestionList) :
  batch_size args = 0 ->
  assoc "LEETCODE_SESSION_ID" (environ w) = Some session ->
  remote w (List.length (sent w)) (ReqCsrfCookie session)
  = Ok (RespCookie token) ->
  remote w (S (List.length (sent w)))
         (ReqGraphqlPost token session count_request)
  = Ok (RespGraphql (Some (MkData (Some question_list)))) ->
  exists w',
    main json_loads set_iter args w
    = (Raise (Exn ZeroDivisionError "division by zero"), w')
    /\ sent w' = sent w ++ [ReqCsrfCookie session;
                            ReqGraphqlPost token session count_request]
    /\ files w' = files w.
Proof.
  intros Hzero Henv Hcookie Hpost.
  eexists. split.
  - unfold main, _get_problems_data. unfold bind at 1. rewrite Hzero.
    rewrite (get_problems_data_zero_page_size _ _ _ w _
               (get_problems_count_answered w session token question_list
                  Henv Hcookie Hpost)).
    reflexivity.
  - split; reflexivity.
Qed.

Lemma zero_batch_size_fails_after_the_count_witness :
  exists w',
    main (decode_table sample_documents) insertion_order
         (MkNamespace 0 "problems.csv")
         (online (catalogue_replies [two_sum]))
    = (Raise (Exn ZeroDivisionError "division by zero"), w')
    /\ sent w' = sent (online (catalogue_replies [two_sum]))
                 ++ [ReqCsrfCookie "secret";
                     ReqGraphqlPost "token" "secret" count_request]
    /\ files w' = files (online (catalogue_replies [two_sum])).
Proof.
  apply (zero_batch_size_fails_after_the_count (decode_table sample_documents)
           insertion_order (MkNamespace 0 "problems.csv")
           (online (catalogue_replies [two_sum])) "secret" "token"
           (MkQuestionList (Some 1) (Some [two_sum])));
    reflexivity.
Defined.

(** ** Negative page sizes *)





(** ** Coverage of the catalogue *)

(** X8. For a total from 0 to 2^53 - 1 and a page size from 1 to 2^53 the
    requested windows cover the catalogue: every index from 0 to the total
    (the total itself included) lies in the window of a page the driver has
    asked for. *)
Theorem requested_windows_cover_the_catalogue
    (total page_size : Z) (per_call : nat -> list GraphqlQuestionDetail)
    (w : World) :
  0 <= total -> total + 1 <= 2 ^ 53 ->
  0 < page_size <= 2 ^ 53 ->
  calls_to "page" w = [] ->
  exists items w',
    get_problems_data (count_double total) (page_double per_call)
                      page_size w
    = (Ok items, w')
    /\ forall i, 0 <= i <= total ->
         exists page,
           In (MkCall "page" [0; page_size; page]) (calls_to "page" w')
           /\ window_start (page_request 0 page_size page) <= i
              < window_stop (page_request 0 page_size page).
Proof.
  intros Ht Htop Hsize Hfresh.
  destruct (page_count_exact total page_size Ht Htop Hsize)
    as (n & Hn & Hceil).
  destruct (get_problems_data_double per_call page_size
              (count_double total) total n w _
              (count_double_run _ _)) as (w' & Hrun & Hcalls).
  - now rewrite calls_to_page_after_count.
  - exact Hn.
  - apply (ceiling_fits n (total + 1) page_size Hceil); lia.
  - apply (tqdm_close_ceiling n (total + 1) page_size Hceil); lia.
  - eexists _, w'. split; [exact Hrun|].
    intros i Hi. exists (i / page_size).
    pose proof (Z.div_mod i page_size ltac:(lia)) as Hdm.
    pose proof (Z.mod_pos_bound i page_size ltac:(lia)) as Hmod.
    assert (Hq : 0 <= i / page_size) by (apply Z.div_pos; lia).
    unfold is_ceiling in Hceil.
    assert (Hlt : i / page_size < n) by nia.
    split.
    + rewrite Hcalls. apply in_map_iff. exists (i / page_size).
      split; [reflexivity|]. unfold range. apply in_map_iff.
      exists (Z.to_nat (i / page_size)). split; [lia|].
      apply in_seq. lia.
    + unfold window_start, window_stop.
      cbn [page_request variables skip limit]. nia.
Qed.

Lemma requested_windows_cover_the_catalogue_witness :
  exists items w',
    get_problems_data (count_double 2) (page_double one_per_call) 1 offline
    = (Ok items, w')
    /\ forall i, 0 <= i <= 2 ->
         exists page,
           In (MkCall "page" [0; 1; page]) (calls_to "page" w')
           /\ window_start (page_request 0 1 page) <= i
              < window_stop (page_request 0 1 page).
Proof.
  apply (requested_windows_cover_the_catalogue 2 1 one_per_call offline).
  - lia.
  - vm_compute; discriminate.
  - split; [lia | vm_compute; discriminate].
  - reflexivity.
Defined.

(** X9. When the page size divides the total, the driver asks for one page
    more than the catalogue holds: with [total = q * page_size] it invokes
    the page fetcher [q + 1] times, and the window of the last page starts
    at index [total], past the last item. *)
Theorem exact_multiple_costs_one_more_page
    (q page_size : Z) (per_call : nat -> list GraphqlQuestionDetail)
    (w : World) :
  0 <= q -> 0 < page_size <= 2 ^ 53 ->
  q * page_size + 1 <= 2 ^ 53 ->
  calls_to "page" w = [] ->
  exists items w',
    get_problems_data (count_double (q * page_size)) (page_double per_call)
                      page_size w
    = (Ok items, w')
    /\ calls_to "page" w'
       = map (fun page => MkCall "page" [0; page_size; page]) (range (q + 1))
    /\ window_start (page_request 0 page_size q) = q * page_size.
Proof.
  intros Hq Hsize Htop Hfresh.
  destruct (page_count_exact (q * page_size) page_size)
    as (n & Hn & Hceil); [nia | exact Htop | exact Hsize |].
  pose proof (ceiling_fits n (q * page_size + 1) page_size Hceil
                ltac:(lia) Htop) as Hfits.
  pose proof (tqdm_close_ceiling n (q * page_size + 1) page_size Hceil
                ltac:(nia) Hsize) as Hclose.
  assert (n = q + 1) by (unfold is_ceiling in Hceil; nia). subst n.
  destruct (get_problems_data_double per_call page_size
              (count_double (q * page_size)) (q * page_size) (q + 1) w _
              (count_double_run _ _)) as (w' & Hrun & Hcalls).
  - now rewrite calls_to_page_after_count.
  - exact Hn.
  - exact Hfits.
  - exact Hclose.
  - eexists _, w'. split; [exact Hrun|]. split; [exact Hcalls|].
    unfold window_start. cbn [page_request variables skip]. lia.
Qed.

Lemma exact_multiple_costs_one_more_page_witness :
  exists items w',
    get_problems_data (count_double (2 * 1)) (page_double one_per_call)
                      1 offline
    = (Ok items, w')
    /\ calls_to "page" w'
       = map (fun page => MkCall "page" [0; 1; page]) (range (2 + 1))
    /\ window_start (page_request 0 1 2) = 2 * 1.
Proof.
  apply (exact_multiple_costs_one_more_page 2 1 one_per_call offline).
  - lia.
  - split; [lia | vm_compute; discriminate].
  - vm_compute; discriminate.
  - reflexivity.
Defined.

(** ** Fetching a served catalogue *)

Lemma firstn_add_split {X} (a b : nat) (l : list X) :
  firstn (a + b) l = firstn a l ++ firstn b (skipn a l).
Proof.
  revert l. induction a as [|a IH]; intros l; [reflexivity|].
  destruct l as [|x l]; simpl.
  - now rewrite firstn_nil.
  - now rewrite IH.
Qed.

(** Consecutive slices of equal length put end to end give back a prefix
    of the list. *)
Lemma concat_slices {X} (size : nat) (l : list X) (n : nat) :
  List.concat (map (fun i => firstn size (skipn (i * size) l)) (seq 0 n))
  = firstn (n * size) l.
Proof.
  induction n as [|n IH]; [reflexivity|].
  rewrite seq_S, map_app, concat_app, IH. simpl.
  rewrite app_nil_r.
  replace (size + n * size)%nat with (n * size + size)%nat by lia.
  now rewrite firstn_add_split.
Qed.

(** One page from a serving remote side: the slice comes back, and the
    machine still holds the credential and still faces the same remote
    side. *)
Lemma page_fetch_served
    (catalogue : list GraphqlQuestionDetail) (session : string)
    (page_size page : Z) (w : World) :
  serves catalogue session w ->
  _get_problems_data_page 0 page_size page w
  = (Ok (Some (catalogue_slice catalogue page_size page)),
     MkWorld (environ w) (remote w)
             (sent w ++ [ReqCsrfCookie session;
                         ReqGraphqlPost "token" session
                           (page_request 0 page_size page)])
             (slept w ++ [2]) (logged w) (files w) (calls w)).
Proof.
  intros [Henv Hremote].
  apply (get_problems_data_page_answered 0 page_size page w session "token"
           (MkQuestionList (Some (Z.of_nat (List.length catalogue)))
                           (Some (catalogue_slice catalogue page_size page)))
           Henv).
  - now rewrite Hremote.
  - now rewrite Hremote.
Qed.

Lemma fetch_pages_served
    (catalogue : list GraphqlQuestionDetail) (session : string)
    (page_size : Z) :
  forall (pages : list Z) (problems : list GraphqlQuestionDetail)
         (w : World),
    serves catalogue session w ->
    exists w',
      fetch_pages _get_problems_data_page 0 page_size pages problems w
      = (Ok (problems
             ++ List.concat (map (catalogue_slice catalogue page_size)
                                 pages)), w')
      /\ serves catalogue session w'
      /\ files w' = files w
      /\ logged w' = logged w
      /\ slept w' = slept w ++ repeat 2 (List.length pages)
      /\ List.length (sent w')
         = (List.length (sent w) + 2 * List.length pages)%nat.
Proof.
  induction pages as [|page rest IH]; intros problems w Hw.
  - exists w. simpl. unfold ret. rewrite !app_nil_r.
    repeat split; try apply Hw; lia.
  - set (w1 := MkWorld (environ w) (remote w)
                 (sent w ++ [ReqCsrfCookie session;
                             ReqGraphqlPost "token" session
                               (page_request 0 page_size page)])
                 (slept w ++ [2]) (logged w) (files w) (calls w)).
    assert (Hw1 : serves catalogue session w1) by exact Hw.
    destruct (IH (problems ++ catalogue_slice catalogue page_size page)
                 w1 Hw1)
      as (w' & Hrun & Hserves & Hfiles & Hlog & Hslept & Hsent).
    exists w'. split; [|split; [exact Hserves|split; [exact Hfiles|
                         split; [exact Hlog|split]]]].
    + simpl fetch_pages. unfold bind at 1.
      rewrite (page_fetch_served catalogue session page_size page w Hw).
      fold w1. rewrite Hrun. simpl. now rewrite <- app_assoc.
    + rewrite Hslept. unfold w1. cbn [slept]. simpl.
      now rewrite <- app_assoc.
    + rewrite Hsent. unfold w1. cbn [sent]. rewrite length_app. simpl. lia.
Qed.

Lemma catalogue_slice_nat
    (catalogue : list GraphqlQuestionDetail) (page_size : Z) (i : nat) :
  0 < page_size ->
  catalogue_slice catalogue page_size (Z.of_nat i)
  = firstn (Z.to_nat page_size)
           (skipn (i * Z.to_nat page_size) catalogue).
Proof.
  intros Hsize. unfold catalogue_slice. do 2 f_equal.
  rewrite Z.add_0_l, Z2Nat.inj_mul, Nat2Z.id by lia. reflexivity.
Qed.

(** The whole fetch against a serving remote side. *)
Lemma catalogue_is_fetched
    (catalogue : list GraphqlQuestionDetail) (session : string)
    (page_size : Z) (w : World) :
  serves catalogue session w ->
  Z.of_nat (List.length catalogue) + 1 <= 2 ^ 53 ->
  0 < page_size <= 2 ^ 53 ->
  exists n w',
    _get_problems_data page_size w = (Ok catalogue, w')
    /\ is_ceiling n (Z.of_nat (List.length catalogue) + 1) page_size
    /\ files w' = files w
    /\ slept w' = slept w ++ repeat 2 (1 + Z.to_nat n)
    /\ List.length (sent w')
       = (List.length (sent w) + 2 * (1 + Z.to_nat n))%nat.
Proof.
  intros Hw Hlen Hsize.
  set (total := Z.of_nat (List.length catalogue)) in *.
  destruct (page_count_exact total page_size) as (n & Hn & Hceil);
    [lia | exact Hlen | exact Hsize |].
  destruct Hw as [Henv Hremote].
  pose proof (get_problems_count_answered w session "token"
                (MkQuestionList (Some total)
                   (Some (firstn (Z.to_nat 1)
                                 (skipn (Z.to_nat 0) catalogue))))
                Henv) as Hcount.
  rewrite !Hremote in Hcount. specialize (Hcount eq_refl eq_refl).
  cbn [total_num or_zero] in Hcount.
  replace (if total =? 0 then 0 else total) with total in Hcount
    by (destruct (Z.eqb_spec total 0); lia).
  set (w1 := MkWorld (environ w) (remote w)
               (sent w ++ [ReqCsrfCookie session;
                           ReqGraphqlPost "token" session count_request])
               (slept w ++ [2]) (logged w) (files w) (calls w)) in *.
  set (w2 := snd (logging (LogInfo "Fetching %s problems %s per page"
                             [total - 0 + 1; page_size]) w1)).
  assert (Hw2 : serves catalogue session w2) by (split; assumption).
  destruct (fetch_pages_served catalogue session page_size (range n) [] w2
              Hw2)
    as (w' & Hrun & _ & Hfiles & _ & Hslept & Hsent).
  exists n, w'. split; [|split; [exact Hceil|split; [exact Hfiles|split]]].
  - unfold _get_problems_data, get_problems_data. unfold bind at 1.
    rewrite Hcount. cbv zeta. unfold bind at 1.
    change (logging (LogInfo "Fetching %s problems %s per page"
                       [total - 0 + 1; page_size]) w1) with (Ok tt, w2).
    cbv iota. unfold bind at 1. unfold lift at 1. rewrite Hn.
    unfold bind at 1. unfold lift at 1.
    rewrite (tqdm_range_fits n)
      by (apply (ceiling_fits n (total + 1) page_size Hceil); lia).
    unfold bind at 1. rewrite Hrun.
    unfold bind at 1. unfold lift at 1.
    rewrite (tqdm_close_ceiling n (total + 1) page_size Hceil)
      by (unfold total; lia).
    unfold ret. f_equal. f_equal. simpl app.
    unfold range. rewrite map_map.
    rewrite (map_ext _ (fun i => firstn (Z.to_nat page_size)
                                   (skipn (i * Z.to_nat page_size)
                                          catalogue)))
      by (intros i; apply catalogue_slice_nat; lia).
    rewrite concat_slices. apply firstn_all2.
    unfold is_ceiling in Hceil. unfold total in Hceil. nia.
  - rewrite Hslept, length_range. unfold w2, w1, logging. cbn [snd slept].
    rewrite <- app_assoc. reflexivity.
  - rewrite Hsent, length_range. unfold w2, w1, logging. cbn [snd sent].
    rewrite length_app. simpl. lia.
Qed.

(** X10. Against a remote side that reports the size of a catalogue and
    answers every page query with the slice it asks for, the driver with
    the real fetchers returns the catalogue itself: every item once, in the
    catalogue's order, for every page size from 1 to 2^53.  It pauses 2
    seconds before each of its [1 + ceil((size + 1) / page_size)] queries
    and sends twice as many requests, a cookie lookup going before each
    query. *)
Theorem served_catalogue_is_fetched_whole
    (catalogue : list GraphqlQuestionDetail) (session : string)
    (page_size : Z) (w : World) :
  serves catalogue session w ->
  Z.of_nat (List.length catalogue) + 1 <= 2 ^ 53 ->
  0 < page_size <= 2 ^ 53 ->
  exists n w',
    _get_problems_data page_size w = (Ok catalogue, w')
    /\ is_ceiling n (Z.of_nat (List.length catalogue) + 1) page_size
    /\ slept w' = slept w ++ repeat 2 (1 + Z.to_nat n)
    /\ List.length (sent w')
       = (List.length (sent w) + 2 * (1 + Z.to_nat n))%nat.
Proof.
  intros Hw Hlen Hsize.
  destruct (catalogue_is_fetched catalogue session page_size w Hw Hlen Hsize)
    as (n & w' & Hrun & Hceil & _ & Hslept & Hsent).
  exists n, w'.
  split; [exact Hrun|split; [exact Hceil|split; assumption]].
Qed.

Lemma served_catalogue_is_fetched_whole_witness :
  exists n w',
    _get_problems_data 1 (online (catalogue_replies
                                    [two_sum; add_two_numbers]))
    = (Ok [two_sum; add_two_numbers], w')
    /\ is_ceiling n (Z.of_nat (List.length [two_sum; add_two_numbers]) + 1) 1
    /\ slept w'
       = slept (online (catalogue_replies [two_sum; add_two_numbers]))
         ++ repeat 2 (1 + Z.to_nat n)
    /\ List.length (sent w')
       = (List.length
            (sent (online (catalogue_replies [two_sum; add_two_numbers])))
          + 2 * (1 + Z.to_nat n))%nat.
Proof.
  apply (served_catalogue_is_fetched_whole [two_sum; add_two_numbers]
           "secret" 1
           (online (catalogue_replies [two_sum; add_two_numbers]))).
  - split; [reflexivity | intros n r; reflexivity].
  - vm_compute; discriminate.
  - split; [lia | vm_compute; discriminate].
Defined.

(** X11. A whole run against a remote side that serves a catalogue of
    well-formed items, with a batch size from 1 to 2^53, an output path
    that can be opened for writing and a text layer that writes text as it
    is: the run ends without an error and the file the path leads to holds
    the header line, the eight column names with nothing but a semicolon
    between them, followed by one semicolon-delimited line per item of the
    catalogue, in the catalogue's order, each made of the fields of its
    item. *)
Theorem run_exports_the_served_catalogue
    (json_loads : string -> outcome pyjson)
    (set_iter : list string -> list string)
    (args : Namespace) (catalogue : list GraphqlQuestionDetail)
    (session file : string) (w : World) :
  set_semantics set_iter ->
  serves catalogue session w ->
  Forall (well_formed json_loads) catalogue ->
  Z.of_nat (List.length catalogue) + 1 <= 2 ^ 53 ->
  0 < batch_size args <= 2 ^ 53 ->
  open_target (files w) (output args) = Ok file ->
  writes_text_as_is (files w) ->
  exists rows w',
    main json_loads set_iter args w = (Ok tt, w')
    /\ Forall2 (is_row_of json_loads) catalogue rows
    /\ file_content file w'
       = (header_line ++ delimited_text rows)%string.
Proof.
  intros Hset Hw Hwf Hlen Hsize Hopen Htext.
  destruct (catalogue_is_fetched catalogue session (batch_size args) w
              Hw Hlen Hsize) as (n & w1 & Hfetch & _ & Hfiles & _).
  rewrite <- Hfiles in Hopen, Htext.
  destruct (rows_of_well_formed json_loads set_iter catalogue Hset Hwf)
    as (rows & Hrows & Hspec & Hfields).
  destruct (export_starts_with_header json_loads set_iter file
              (output args) catalogue w1 Hopen Htext)
    as (w0 & Hexport & Hheader & Htext0).
  destruct (write_rows_all json_loads set_iter file catalogue rows
              w0 Htext0 Hrows) as (w' & Hrun & Hfile).
  exists rows, w'. split; [|split; [exact Hspec|]].
  - unfold main. unfold bind at 1. rewrite Hfetch, Hexport. exact Hrun.
  - now rewrite Hfile, Hheader, header_is_header_line,
      (csv_lines_delimited rows Hfields).
Qed.

Lemma run_exports_the_served_catalogue_witness :
  exists rows w',
    main (decode_table sample_documents) insertion_order
         (MkNamespace 1 "problems.csv")
         (online (catalogue_replies [two_sum; add_two_numbers]))
    = (Ok tt, w')
    /\ Forall2 (is_row_of (decode_table sample_documents))
               [two_sum; add_two_numbers] rows
    /\ file_content "problems.csv" w'
       = (header_line ++ delimited_text rows)%string.
Proof.
  apply (run_exports_the_served_catalogue (decode_table sample_documents)
           insertion_order (MkNamespace 1 "problems.csv")
           [two_sum; add_two_numbers] "secret" "problems.csv"
           (online (catalogue_replies [two_sum; add_two_numbers]))).
  - exact insertion_order_is_set.
  - split; [reflexivity | intros n r; reflexivity].
  - apply Forall_cons; [|apply Forall_cons; [|apply Forall_nil]];
      (split;
       [ eexists; split; [reflexivity | repeat constructor; discriminate]
       | do 2 eexists; repeat split; reflexivity ]).
  - vm_compute; discriminate.
  - split; [simpl; lia | vm_compute; discriminate].
  - reflexivity.
  - intros text. reflexivity.
Defined.

(** ** One output file *)

Lemma assoc_store_other {V} (key other : string) (v : V)
    (l : list (string * V)) :
  other <> key -> assoc other (store key v l) = assoc other l.
Proof.
  intros Hne. induction l as [|[k x] l IH]; simpl.
  - destruct (String.eqb_spec key other); [congruence | reflexivity].
  - destruct (String.eqb_spec k key) as [->|Hk]; simpl.
    + destruct (String.eqb_spec key other); [congruence | reflexivity].
    + destruct (String.eqb_spec k other); [reflexivity | exact IH].
Qed.

Lemma file_content_set_file_other (file other content : string) (w : World) :
  other <> file ->
  file_content other (set_file file content w) = file_content other w.
Proof.
  intros Hne. unfold file_content, set_file; simpl.
  now rewrite assoc_store_other.
Qed.

Lemma file_write_other_files (file other text : string) (w : World) :
  other <> file ->
  file_content other (snd (file_write file text w)) = file_content other w.
Proof.
  intros Hne. unfold file_write.
  destruct (text_layer (files w) text); [|reflexivity].
  now apply file_content_set_file_other.
Qed.

Lemma write_rows_other_files
    (json_loads : string -> outcome pyjson)
    (set_iter : list string -> list string) (file other : string) :
  other <> file ->
  forall (items : list GraphqlQuestionDetail) (w : World),
    file_content other (snd (write_rows json_loads set_iter file items w))
    = file_content other w.
Proof.
  intros Hne. induction items as [|p items IH]; intros w; [reflexivity|].
  simpl write_rows. unfold bind at 1. unfold lift at 1.
  destruct (problem_row json_loads set_iter p) as [row|e]; [|reflexivity].
  unfold bind at 1.
  pose proof (file_write_other_files file other (Csv.format_row row) w Hne)
    as Hrow.
  unfold writerow.
  destruct (file_write file (Csv.format_row row) w) as [[[]|e] w1];
    cbn [snd] in *; [|exact Hrow].
  now rewrite IH.
Qed.

Lemma export_other_files
    (json_loads : string -> outcome pyjson)
    (set_iter : list string -> list string) (path other : string)
    (items : list GraphqlQuestionDetail) (w : World) :
  (forall file, open_target (files w) path = Ok file -> other <> file) ->
  file_content other (snd (export json_loads set_iter path items w))
  = file_content other w.
Proof.
  intros Hne. unfold export. unfold bind at 1. unfold open_w at 1.
  destruct (open_target (files w) path) as [file|e]; [|reflexivity].
  specialize (Hne file eq_refl).
  unfold bind at 1. unfold writerow at 1.
  pose proof (file_write_other_files file other (Csv.format_row csv_header)
                (set_file file EmptyString w) Hne) as Hheader.
  destruct (file_write file (Csv.format_row csv_header)
              (set_file file EmptyString w)) as [[[]|e] w1];
    cbn [snd] in *.
  - rewrite (write_rows_other_files json_loads set_iter file other Hne).
    rewrite Hheader. now apply file_content_set_file_other.
  - rewrite Hheader. now apply file_content_set_file_other.
Qed.

(** X12. A run writes to one file only, the one its output path leads to:
    whatever happens, every file that is not the one the output path opens
    has the content it had before; when the output path cannot be opened,
    that is every file. *)
Theorem run_touches_only_the_output_file
    (json_loads : string -> outcome pyjson)
    (set_iter : list string -> list string)
    (args : Namespace) (w : World) (other : string) :
  (forall file,
     open_target (files w) (output args) = Ok file -> other <> file) ->
  file_content other (snd (main json_loads set_iter args w))
  = file_content other w.
Proof.
  intros Hne. unfold main. unfold bind at 1.
  pose proof (keeps_files_fetch (batch_size args) w) as Hfetch.
  destruct (_get_problems_data (batch_size args) w) as [[items|e] w1];
    cbn [snd] in *.
  - rewrite (export_other_files json_loads set_iter (output args) other
               items w1)
      by (rewrite Hfetch; exact Hne).
    unfold file_content. now rewrite Hfetch.
  - unfold file_content. now rewrite Hfetch.
Qed.

Lemma run_touches_only_the_output_file_witness :
  file_content "notes.txt"
    (snd (main (decode_table sample_documents) insertion_order
               (MkNamespace 300 "problems.csv")
               (online (catalogue_replies [two_sum]))))
  = file_content "notes.txt" (online (catalogue_replies [two_sum])).
Proof.
  apply (run_touches_only_the_output_file (decode_table sample_documents)
           insertion_order (MkNamespace 300 "problems.csv")
           (online (catalogue_replies [two_sum])) "notes.txt").
  intros file Hopen. vm_compute in Hopen. injection Hopen as <-.
  discriminate.
Defined.

(** X13. When fetching fails, at whatever point, the run fails with the
    same error and no file has been created, truncated or written: the
    output file is opened only once all pages are in memory. *)
Theorem failed_fetch_leaves_files_alone
    (json_loads : string -> outcome pyjson)
    (set_iter : list string -> list string)
    (args : Namespace) (w w1 : World) (e : exn) :
  _get_problems_data (batch_size args) w = (Raise e, w1) ->
  main json_loads set_iter args w = (Raise e, w1)
  /\ files w1 = files w.
Proof.
  intros Hfetch. split.
  - unfold main, bind. now rewrite Hfetch.
  - pose proof (keeps_files_fetch (batch_size args) w) as H.
    now rewrite Hfetch in H.
Qed.

Lemma failed_fetch_leaves_files_alone_witness :
  main (decode_table sample_documents) insertion_order
       (MkNamespace 300 "problems.csv") (online always_failing)
  = (Raise (Exn ProtocolError "Connection aborted."),
     snd (_get_problems_data 300 (online always_failing)))
  /\ files (snd (_get_problems_data 300 (online always_failing)))
     = files (online always_failing).
Proof.
  apply (failed_fetch_leaves_files_alone (decode_table sample_documents)
           insertion_order (MkNamespace 300 "problems.csv")
           (online always_failing)
           (snd (_get_problems_data 300 (online always_failing)))
           (Exn ProtocolError "Connection aborted.")).
  vm_compute. reflexivity.
Defined.

(** ** When a row can be written *)

Lemma tag_slugs_ok (tags : list TopicTag) (ss : list string) :
  tag_slugs tags = Ok ss -> Forall (fun t => tag_slug t <> None) tags.
Proof.
  revert ss. induction tags as [|t tags IH]; intros ss; [constructor|].
  simpl. destruct (tag_slug t) as [s|] eqn:Ht; [|discriminate].
  destruct (tag_slugs tags) as [ss'|e]; [|discriminate].
  intros _. constructor; [congruence | now apply (IH ss')].
Qed.

(** X14. The row of an item can be computed exactly when its topic tags
    are present and each has a slug, and its company statistics are a text
    that decodes to an object whose values are lists of tag objects with a
    string slug, empty strings or empty objects; in every other case the
    row, and with it the export, ends in an error. *)
Theorem row_is_computed_iff
    (json_loads : string -> outcome pyjson)
    (set_iter : list string -> list string)
    (p : GraphqlQuestionDetail) :
  (exists row, problem_row json_loads set_iter p = Ok row)
  <-> ((exists tags,
          topic_tags p = Some tags
          /\ Forall (fun t => tag_slug t <> None) tags)
       /\ (exists text stats,
             company_tag_stats p = Some text
             /\ json_loads text = Ok stats
             /\ tolerated_shape stats = true)).
Proof.
  split.
  - intros (row & Hrow). unfold problem_row in Hrow.
    destruct (topics_field p) as [topics|e] eqn:Htopics; [|discriminate].
    simpl in Hrow.
    destruct (companies_field json_loads set_iter p) as [companies|e]
      eqn:Hcompanies; [|discriminate].
    split.
    + unfold topics_field in Htopics.
      destruct (topic_tags p) as [tags|]; [|discriminate].
      exists tags. split; [reflexivity|].
      destruct (tag_slugs tags) as [ss|e] eqn:Hss; [|discriminate].
      now apply (tag_slugs_ok tags ss).
    + unfold companies_field, company_slugs in Hcompanies.
      destruct (company_tag_stats p) as [text|]; [|discriminate].
      destruct (json_loads text) as [stats|e] eqn:Hstats; [|discriminate].
      exists text, stats. split; [reflexivity|]. split; [exact Hstats|].
      destruct (tolerated_shape stats) eqn:Hshape; [reflexivity|].
      destruct (flatten_not_tolerated stats Hshape) as (e & He).
      cbn [obind] in Hcompanies. rewrite He in Hcompanies.
      discriminate.
  - intros [(tags & Htags & Hslugs)
            (text & stats & Htext & Hstats & Hshape)].
    unfold problem_row, companies_field, topics_field.
    rewrite Htags, (tag_slugs_present tags Hslugs).
    rewrite (company_slugs_tolerated json_loads p text stats Htext Hstats
               Hshape).
    simpl. eexists. reflexivity.
Qed.

(** X15. The export stops at the first item whose row cannot be computed,
    whatever the cause: when the output path can be opened for writing and
    the text layer writes text as it is, the error of that row ends the
    run, the file holds the header line and the lines of the items before
    that one, and no later item is written, well-formed or not. *)
Theorem export_stops_at_first_bad_row
    (json_loads : string -> outcome pyjson)
    (set_iter : list string -> list string)
    (args : Namespace)
    (before after : list GraphqlQuestionDetail)
    (failing : GraphqlQuestionDetail) (rows : list (list string))
    (e : exn) (file : string) (w w1 : World) :
  _get_problems_data (batch_size args) w
  = (Ok (before ++ failing :: after), w1) ->
  Forall2 (fun p row => problem_row json_loads set_iter p = Ok row)
          before rows ->
  problem_row json_loads set_iter failing = Raise e ->
  open_target (files w) (output args) = Ok file ->
  writes_text_as_is (files w) ->
  exists w',
    main json_loads set_iter args w = (Raise e, w')
    /\ file_content file w'
       = (header_line ++ delimited_text rows)%string.
Proof.
  intros Hfetch Hrows Hfail Hopen Htext.
  pose proof (keeps_files_fetch (batch_size args) w) as Hfiles.
  rewrite Hfetch in Hfiles. cbn [snd] in Hfiles.
  rewrite <- Hfiles in Hopen, Htext.
  destruct (export_starts_with_header json_loads set_iter file
              (output args) (before ++ failing :: after) w1 Hopen Htext)
    as (w0 & Hexport & Hheader & Htext0).
  destruct (write_rows_until_failure json_loads set_iter file
              before after failing rows e w0 Htext0 Hrows Hfail)
    as (w' & Hrun & Hfile).
  exists w'. split.
  - unfold main. unfold bind at 1. rewrite Hfetch, Hexport. exact Hrun.
  - rewrite Hfile, Hheader, header_is_header_line.
    now rewrite (csv_lines_delimited rows
                   (computed_rows_have_eight_fields json_loads set_iter
                      before rows Hrows)).
Qed.

Lemma export_stops_at_first_bad_row_witness :
  exists w',
    main (decode_table sample_documents) insertion_order
         (MkNamespace 300 "problems.csv")
         (online (catalogue_replies [two_sum; untagged_problem;
                                     add_two_numbers]))
    = (Raise (Exn TypeError "'NoneType' object is not iterable"), w')
    /\ file_content "problems.csv" w'
       = (header_line
          ++ delimited_text [["1"; "Two Sum"; "two-sum"; "Algorithms";
                              "0.0"; "False"; "array,hash-table";
                              "x,y"]])%string.
Proof.
  apply (export_stops_at_first_bad_row (decode_table sample_documents)
           insertion_order (MkNamespace 300 "problems.csv")
           [two_sum] [add_two_numbers] untagged_problem
           [["1"; "Two Sum"; "two-sum"; "Algorithms"; "0.0";
             "False"; "array,hash-table"; "x,y"]]
           (Exn TypeError "'NoneType' object is not iterable")
           "problems.csv"
           (online (catalogue_replies [two_sum; untagged_problem;
                                       add_two_numbers]))
           (snd (_get_problems_data 300
                   (online (catalogue_replies
                              [two_sum; untagged_problem;
                               add_two_numbers]))))).
  - vm_compute. reflexivity.
  - constructor; [vm_compute; reflexivity | constructor].
  - reflexivity.
  - reflexivity.
  - intros text. reflexivity.
Defined.

(** ** What a run sends *)









(** ** The count fetcher on the wire *)

(** X17. When the remote side answers, the count fetcher returns the total
    it reports, 0 standing for a missing one.  It has then sent the cookie
    lookup and, with the token received, one query that asks for a single
    item at offset 0 under an empty tag filter; it has paused 2 seconds
    once, between the two, and has logged nothing. *)
Theorem count_fetcher_costs_two_round_trips
    (w : World) (session token : string) (question_list : QuestionList) :
  assoc "LEETCODE_SESSION_ID" (environ w) = Some session ->
  remote w (List.length (sent w)) (ReqCsrfCookie session)
  = Ok (RespCookie token) ->
  remote w (S (List.length (sent w)))
         (ReqGraphqlPost token session count_request)
  = Ok (RespGraphql (Some (MkData (Some question_list)))) ->
  exists w',
    _get_problems_count w
    = (Ok (match total_num question_list with
           | Some total => total
           | None => 0
           end), w')
    /\ sent w' = sent w ++ [ReqCsrfCookie session;
                            ReqGraphqlPost token session count_request]
    /\ limit (variables count_request) = 1
    /\ skip (variables count_request) = 0
    /\ filters_tags (variables count_request) = Some []
    /\ slept w' = slept w ++ [2]
    /\ logged w' = logged w.
Proof.
  intros Henv Hcookie Hpost. eexists. split.
  - rewrite (get_problems_count_answered w session token question_list
               Henv Hcookie Hpost).
    f_equal. f_equal. unfold or_zero.
    destruct (total_num question_list) as [total|]; [|reflexivity].
    now destruct (Z.eqb_spec total 0).
  - repeat split.
Qed.

Lemma count_fetcher_costs_two_round_trips_witness :
  exists w',
    _get_problems_count (online (catalogue_replies [two_sum]))
    = (Ok (match total_num (MkQuestionList (Some 1) (Some [two_sum])) with
           | Some total => total
           | None => 0
           end), w')
    /\ sent w' = sent (online (catalogue_replies [two_sum]))
                 ++ [ReqCsrfCookie "secret";
                     ReqGraphqlPost "token" "secret" count_request]
    /\ limit (variables count_request) = 1
    /\ skip (variables count_request) = 0
    /\ filters_tags (variables count_request) = Some []
    /\ slept w' = slept (online (catalogue_replies [two_sum])) ++ [2]
    /\ logged w' = logged (online (catalogue_replies [two_sum])).
Proof.
  apply (count_fetcher_costs_two_round_trips
           (online (catalogue_replies [two_sum])) "secret" "token"
           (MkQuestionList (Some 1) (Some [two_sum])));
    reflexivity.
Defined.

(** X18. An answer without data is not retried.  When the reply to the
    count query carries no data, the client rejects it with [ValueError];
    when it carries data without a question list, reading the total fails
    with [AttributeError].  Either way the count fetcher fails with that
    error after that one query, without the 5-second sleep and without a
    log record. *)
Theorem count_fetcher_does_not_retry_empty_answers
    (w : World) (session token : string) (data : option GraphqlData) :
  assoc "LEETCODE_SESSION_ID" (environ w) = Some session ->
  remote w (List.length (sent w)) (ReqCsrfCookie session)
  = Ok (RespCookie token) ->
  remote w (S (List.length (sent w)))
         (ReqGraphqlPost token session count_request)
  = Ok (RespGraphql data) ->
  data = None \/ data = Some (MkData None) ->
  exists e,
    exc_type e = match data with
                 | None => ValueError
                 | Some _ => AttributeError
                 end
    /\ _get_problems_count w
       = (Raise e,
          MkWorld (environ w) (remote w)
                  (sent w ++ [ReqCsrfCookie session;
                              ReqGraphqlPost token session count_request])
                  (slept w ++ [2]) (logged w) (files w) (calls w)).
Proof.
  intros Henv Hcookie Hpost Hdata.
  assert (Hbody : exists e,
             exc_type e = match data with
                          | None => ValueError
                          | Some _ => AttributeError
                          end
             /\ get_problems_count_body w
                = (Raise e,
                   MkWorld (environ w) (remote w)
                     (sent w ++ [ReqCsrfCookie session;
                                 ReqGraphqlPost token session count_request])
                     (slept w ++ [2]) (logged w) (files w) (calls w))).
  { unfold get_problems_count_body.
    unfold bind at 1.
    rewrite (client_answered w session token Henv Hcookie).
    rewrite <- bind_assoc_run. unfold bind at 1. rewrite paced_post.
    cbn [environ remote sent slept logged files calls
         x_csrftoken LEETCODE_SESSION].
    rewrite length_app, Nat.add_1_r, Hpost, <- app_assoc.
    destruct Hdata as [-> | ->]; eexists; (split; [|reflexivity]);
      reflexivity. }
  destruct Hbody as (e & Htype & Hbody).
  exists e. split; [exact Htype|].
  unfold _get_problems_count, retry.
  change (range (3 - 1)) with [0; 1]. cbn [wrapper_loop].
  unfold try_except at 1. rewrite Hbody.
  unfold isinstance. rewrite Htype.
  destruct Hdata as [-> | ->]; reflexivity.
Qed.

Lemma count_fetcher_does_not_retry_empty_answers_witness :
  exists e,
    exc_type e = ValueError
    /\ _get_problems_count (online no_data)
       = (Raise e,
          MkWorld (environ (online no_data)) (remote (online no_data))
                  (sent (online no_data)
                   ++ [ReqCsrfCookie "secret";
                       ReqGraphqlPost "token" "secret" count_request])
                  (slept (online no_data) ++ [2]) (logged (online no_data))
                  (files (online no_data)) (calls (online no_data))).
Proof.
  apply (count_fetcher_does_not_retry_empty_answers (online no_data)
           "secret" "token" None); try reflexivity.
  now left.
Defined.
